(** * IRONCLAD: the browser viewer (docs/assets/js/viewer.js), the workflow
    samples (docs/assets/js/workflow.js) and the extraction-to-comparison
    pipeline they display.

    The viewer is dynamically typed JavaScript working on parsed JSON, so
    the embedding keeps JavaScript values as they are: a record is an
    object with optional properties, a property read on [null] or
    [undefined] throws, and the library functions the viewer calls
    (number formatting, case folding, sorting) are an interface of the
    host runtime. *)

From Stdlib Require Import Floats ZArith.
From stdpp Require Import base option list strings pretty gmap.

Set Warnings "-inexact-float,-register-all".
Set Default Proof Using "Type*".

(** ** JavaScript values *)

Module JS.

(** Values as [JSON.parse] builds them, together with [undefined], the
    result of reading a property that is not there. Numbers are binary64. *)
Inductive value :=
| VUndefined
| VNull
| VBool (b : bool)
| VNum (x : float)
| VStr (s : string)
| VArr (xs : list value)
| VObj (fields : list (string * value)).

(** The part of the host the viewer calls and does not define. Every
    field is a library function of the language; [array_sort] is
    [Array.prototype.sort], whose order is implementation-defined when the
    comparator is not consistent, but whose result always holds the same
    elements. *)
Class Runtime := {
  number_to_string : float → string;
  to_fixed : float → nat → string;
  to_exponential : float → nat → string;
  string_to_number : string → float;
  to_lower_case : string → string;
  trim : string → string;
  array_sort : ∀ A : Type, (A → A → Z) → list A → list A;
  array_sort_perm : ∀ (A : Type) (cmp : A → A → Z) (l : list A),
    array_sort A cmp l ≡ₚ l;
}.

(** [v === null || v === undefined] *)
Definition nullish (v : value) : bool :=
  match v with
  | VUndefined | VNull => true
  | _ => false
  end.

Definition nonempty (s : string) : bool :=
  match s with
  | EmptyString => false
  | String _ _ => true
  end.

(** ToBoolean *)
Definition truthy (v : value) : bool :=
  match v with
  | VUndefined | VNull => false
  | VBool b => b
  | VNum x => negb (PrimFloat.eqb x 0 || PrimFloat.is_nan x)
  | VStr s => nonempty s
  | VArr _ | VObj _ => true
  end.

(** [a || b] and [a ?? b] *)
Definition or_else (a b : value) : value := if truthy a then a else b.
Definition coalesce (a b : value) : value := if nullish a then b else a.

(** Own property of a parsed object; [undefined] when it is missing. *)
Fixpoint own (fields : list (string * value)) (k : string) : value :=
  match fields with
  | [] => VUndefined
  | (k', v) :: rest => if String.eqb k' k then v else own rest k
  end.

(** [v.k] for the data keys the viewer reads (none of them is defined on a
    prototype): a TypeError, here [None], on [null] and [undefined]. *)
Definition prop (v : value) (k : string) : option value :=
  match v with
  | VUndefined | VNull => None
  | VObj fields => Some (own fields k)
  | _ => Some VUndefined
  end.

(** [v?.k] *)
Definition opt_prop (v : value) (k : string) : value :=
  match v with
  | VObj fields => own fields k
  | _ => VUndefined
  end.

(** Truth value of [v.length] for a truthy [v]. *)
Definition has_length (v : value) : bool :=
  match v with
  | VArr xs => match xs with [] => false | _ :: _ => true end
  | VStr s => nonempty s
  | VObj fields => truthy (own fields "length")
  | _ => false
  end.

(** [a === b]. Arrays and objects compare by identity, and two values
    read from different places of a parsed document are never the same
    object. *)
Definition strict_eq (a b : value) : bool :=
  match a, b with
  | VUndefined, VUndefined => true
  | VNull, VNull => true
  | VBool x, VBool y => Bool.eqb x y
  | VNum x, VNum y => PrimFloat.eqb x y
  | VStr x, VStr y => String.eqb x y
  | _, _ => false
  end.

(** [s.includes(q)] *)
Definition includes (s q : string) : bool :=
  match String.index 0 q s with
  | Some _ => true
  | None => false
  end.

Definition float_of_nat (n : nat) : float :=
  PrimFloat.of_uint63 (Uint63.of_Z (Z.of_nat n)).

(** A nullable number and a nullable string of the data model, as JSON. *)
Definition number_or_null (o : option float) : value :=
  match o with
  | Some x => VNum x
  | None => VNull
  end.

Definition string_or_null (o : option string) : value :=
  match o with
  | Some s => VStr s
  | None => VNull
  end.

Section conversions.
Context `{Runtime}.

(** [String(v)]; an array joins its elements with a comma, a parsed
    object prints as the default tag. *)
Fixpoint to_string (v : value) : string :=
  match v with
  | VUndefined => "undefined"
  | VNull => "null"
  | VBool true => "true"
  | VBool false => "false"
  | VNum x => number_to_string x
  | VStr s => s
  | VArr xs =>
      String.concat ","
        (List.map (λ e, if nullish e then "" else to_string e) xs)
  | VObj _ => "[object Object]"
  end.

(** [xs.join(sep)] *)
Definition array_join (sep : string) (xs : list value) : string :=
  String.concat sep
    (List.map (λ e, if nullish e then "" else to_string e) xs).

(** [v.join(sep)]: only arrays have the method. *)
Definition method_join (v : value) (sep : string) : option string :=
  match v with
  | VArr xs => Some (array_join sep xs)
  | _ => None
  end.

(** [Number(v)] *)
Definition to_number (v : value) : float :=
  match v with
  | VUndefined => PrimFloat.nan
  | VNull => 0%float
  | VBool true => 1%float
  | VBool false => 0%float
  | VNum x => x
  | VStr s => string_to_number s
  | VArr _ | VObj _ => string_to_number (to_string v)
  end.
End conversions.

End JS.

(** ** The viewer: docs/assets/js/viewer.js *)

Module Viewer.
Import JS.

(** The filter controls of the page ([els.searchInput.value],
    [els.originSelect.value], [els.categorySelect.value],
    [els.hardFailOnly.checked]). *)
Record controls := Controls {
  searchInput : string;
  originSelect : string;
  categorySelect : string;
  hardFailOnly : bool;
}.

Record sort_state := SortState { sort_key : string; sort_dir : string }.

(** One element of [state.filteredRecordViews]. *)
Record view := View {
  idx : nat;
  material : value;
  category : value;
  property : value;
  value_display : string;
  unit_original : value;
  page : value;
  origin : value;
  confidence : value;
  hard_fail : string;
}.

(** A value passed to [setStats]: a count kept by the viewer (an array
    length, a counter) or a value taken from the document. *)
Inductive stat :=
| StatCount (n : nat)
| StatValue (v : value).

(** The text the page shows: the record rows, the comparison rows and the
    statistics list. *)
Record dom := Dom {
  recordsTbody : list (list string);
  comparisonTbody : list (list string);
  statsKv : list (string * stat);
}.

(** [state], with the controls and the rendered text it is shown in. *)
Record state := State {
  data : value;
  records : list value;
  comparison : list value;
  tables : list value;
  figures : value;
  logs : list value;
  recordSort : sort_state;
  cmpSort : sort_state;
  filteredRecordViews : list view;
  els : controls;
  page_dom : dom;
}.

(** How a handler ends: normally, by an uncaught TypeError, or on the
    alert of [loadJsonObject]. The state is kept as the handler left it. *)
Inductive outcome :=
| Done
| Threw
| Alert (msg : string).

Definition set_views (vs : list view) (st : state) : state :=
  State (data st) (records st) (comparison st) (tables st) (figures st)
    (logs st) (recordSort st) (cmpSort st) vs (els st) (page_dom st).

Definition set_els (c : controls) (st : state) : state :=
  State (data st) (records st) (comparison st) (tables st) (figures st)
    (logs st) (recordSort st) (cmpSort st) (filteredRecordViews st) c
    (page_dom st).

Definition set_dom (d : dom) (st : state) : state :=
  State (data st) (records st) (comparison st) (tables st) (figures st)
    (logs st) (recordSort st) (cmpSort st) (filteredRecordViews st) (els st)
    d.

Definition set_recordsTbody (rows : list (list string)) (st : state) : state :=
  set_dom (Dom rows (comparisonTbody (page_dom st)) (statsKv (page_dom st))) st.

Definition set_comparisonTbody (rows : list (list string)) (st : state)
  : state :=
  set_dom (Dom (recordsTbody (page_dom st)) rows (statsKv (page_dom st))) st.

Definition set_statsKv (items : list (string * stat)) (st : state) : state :=
  set_dom (Dom (recordsTbody (page_dom st)) (comparisonTbody (page_dom st))
             items) st.

(** The double quote, the line feed and the dash of [valueDisplay]. *)
Definition dquote : string := String (Ascii.ascii_of_nat 34) EmptyString.
Definition newline : string := String (Ascii.ascii_of_nat 10) EmptyString.
Definition en_dash : string := "–".

Section viewer.
Context `{Runtime}.

Definition fmtValue (v : value) : string :=
  match v with
  | VNull | VUndefined => ""
  | VStr EmptyString => ""
  | VNum x =>
      let av := PrimFloat.abs x in
      if negb (PrimFloat.eqb av 0)
         && (PrimFloat.leb 1e4 av || PrimFloat.ltb av 1e-3)
      then to_exponential x 3
      else if PrimFloat.leb 100 av then to_fixed x 2
      else if PrimFloat.leb 1 av then to_fixed x 3
      else to_fixed x 4
  | _ => to_string v
  end.

Definition valueDisplay (rec : value) : option string :=
  a ← prop rec "value_min";
  b ← prop rec "value_max";
  if nullish a then Some ""
  else if nullish b || strict_eq b (VStr "") || strict_eq b a
       then Some (fmtValue a)
       else Some (fmtValue a +:+ en_dash +:+ fmtValue b).

(** [rec?.constraints?.hard_fail] *)
Definition hard_fail_of (rec : value) : value :=
  opt_prop (opt_prop rec "constraints") "hard_fail".

(** [!hf || !hf.length] *)
Definition no_hard_fail (hf : value) : bool :=
  negb (truthy hf) || negb (has_length hf).

Definition hardFailDisplay (rec : value) : option string :=
  let hf := hard_fail_of rec in
  if no_hard_fail hf then Some "" else method_join hf "; ".

Definition getPage (rec : value) : value :=
  coalesce (opt_prop (opt_prop rec "provenance") "page") (VStr "").

(** The text searched by the query: the [hay] of [recordMatchesFilters]. *)
Definition haystack (rec : value) : option string :=
  m ← prop rec "material";
  p ← prop rec "property";
  c ← prop rec "category";
  let snippet := opt_prop (opt_prop rec "provenance") "snippet" in
  cits ← prop rec "citations";
  joined ← method_join (or_else cits (VArr [])) " ";
  Some (to_lower_case (array_join " " [m; p; c; snippet; VStr joined])).

Definition recordMatchesFilters (c : controls) (rec : value) : option bool :=
  let q := to_lower_case (trim (searchInput c)) in
  let origin := originSelect c in
  let cat := categorySelect c in
  origin_differs ←
    (if negb (String.eqb origin "all")
     then o ← prop rec "origin";
          Some (negb (strict_eq (or_else o (VStr "")) (VStr origin)))
     else Some false);
  if origin_differs : bool then Some false else
  cat_differs ←
    (if negb (String.eqb cat "all")
     then k ← prop rec "category";
          Some (negb (strict_eq (or_else k (VStr "")) (VStr cat)))
     else Some false);
  if cat_differs : bool then Some false else
  if hardFailOnly c && no_hard_fail (hard_fail_of rec) then Some false else
  if nonempty q then
    hay ← haystack rec;
    Some (includes hay q)
  else Some true.

(** The object pushed for record [i] in [buildRecordViews]. *)
Definition make_view (i : nat) (r : value) : option view :=
  m ← prop r "material";
  c ← prop r "category";
  p ← prop r "property";
  vd ← valueDisplay r;
  u ← prop r "unit_original";
  o ← prop r "origin";
  cf ← prop r "confidence";
  hf ← hardFailDisplay r;
  Some (View i (or_else m (VStr "")) (or_else c (VStr ""))
          (or_else p (VStr "")) vd (or_else u (VStr "")) (getPage r)
          (or_else o (VStr "")) (coalesce cf (VStr "")) hf).

(** The loop of [buildRecordViews], from index [i] on. *)
Fixpoint build_views (c : controls) (i : nat) (recs : list value)
  : option (list view) :=
  match recs with
  | [] => Some []
  | r :: rest =>
      keep ← recordMatchesFilters c r;
      if keep : bool then
        v ← make_view i r;
        vs ← build_views c (S i) rest;
        Some (v :: vs)
      else build_views c (S i) rest
  end.

Definition buildRecordViews (st : state) : option (list view) :=
  build_views (els st) 0 (records st).

(** [view[key]] *)
Definition view_prop (v : view) (key : string) : value :=
  if String.eqb key "idx" then VNum (float_of_nat (idx v))
  else if String.eqb key "material" then material v
  else if String.eqb key "category" then category v
  else if String.eqb key "property" then property v
  else if String.eqb key "value_display" then VStr (value_display v)
  else if String.eqb key "unit_original" then unit_original v
  else if String.eqb key "page" then page v
  else if String.eqb key "origin" then origin v
  else if String.eqb key "confidence" then confidence v
  else if String.eqb key "hard_fail" then VStr (hard_fail v)
  else VUndefined.

(** [na], [nb] of the comparator: the number a key is compared as, if
    any. *)
Definition numeric_key (v : value) : option float :=
  match v with
  | VNum x => Some x
  | _ =>
      if strict_eq v (VStr "") then None
      else let n := to_number v in
           if PrimFloat.is_nan n then None else Some n
  end.

(** The comparator of [sortByKey]; [m] is [-1] for a descending sort. *)
Definition compare_keys (m : Z) (va vb : value) : Z :=
  match numeric_key va, numeric_key vb with
  | Some na, Some nb =>
      if PrimFloat.ltb na nb then (-1 * m)%Z
      else if PrimFloat.ltb nb na then (1 * m)%Z
      else 0%Z
  | _, _ =>
      let sa := to_lower_case (to_string (coalesce va (VStr ""))) in
      let sb := to_lower_case (to_string (coalesce vb (VStr ""))) in
      if String.ltb sa sb then (-1 * m)%Z
      else if String.ltb sb sa then (1 * m)%Z
      else 0%Z
  end.

(** [sortByKey(arr, key, dir)] over elements read with [get]. The
    comparator reads [a[key]] of both arguments, so it throws as soon as
    it meets an element on which that read throws; with fewer than two
    elements it is never called. *)
Definition sortByKey {A} (get : A → string → option value)
    (arr : list A) (key dir : string) : option (list A) :=
  let m := if String.eqb dir "desc" then (-1)%Z else 1%Z in
  if (length arr <? 2) || forallb (λ a, bool_decide (is_Some (get a key))) arr
  then Some (array_sort A
               (λ a b, compare_keys m (default VUndefined (get a key))
                                      (default VUndefined (get b key)))
               arr)
  else None.

(** What assigning [v] to [textContent] shows. *)
Definition text_content (v : value) : string :=
  if nullish v then "" else to_string v.

(** The cells of one row of the records table. *)
Definition record_cells (v : view) : list string :=
  [ text_content (material v); text_content (category v);
    text_content (property v); value_display v;
    text_content (unit_original v); text_content (page v);
    text_content (or_else (origin v) (VStr ""));
    to_string (confidence v); hard_fail v ].

(** The counting loop of [renderRecordsTable]. [byOrigin] starts as an
    empty object literal; of its keys only the four origin names are
    read afterwards, and none of them is inherited. *)
Fixpoint count_origins (recs : list value) (byOrigin : gmap string nat)
  : option (gmap string nat) :=
  match recs with
  | [] => Some byOrigin
  | r :: rest =>
      o ← prop r "origin";
      let k := to_string (or_else o (VStr "unclear")) in
      count_origins rest (<[k := S (default 0 (byOrigin !! k))]> byOrigin)
  end.

(** [v?.length || 0] *)
Definition length_or_zero (v : value) : stat :=
  match v with
  | VArr xs => StatCount (length xs)
  | VStr s => StatCount (String.length s)
  | VObj fields => StatValue (or_else (own fields "length") (VNum 0))
  | _ => StatCount 0
  end.

Definition stats_items (st : state) (byOrigin : gmap string nat)
  : list (string * stat) :=
  [ ("doc_id",
      StatValue (coalesce (opt_prop (data st) "doc_id") (VStr "(unknown)")));
    ("records (total)", StatCount (length (records st)));
    ("records (filtered)", StatCount (length (filteredRecordViews st)));
    ("this_work", StatCount (default 0 (byOrigin !! "this_work")));
    ("literature", StatCount (default 0 (byOrigin !! "literature")));
    ("mixed", StatCount (default 0 (byOrigin !! "mixed")));
    ("unclear", StatCount (default 0 (byOrigin !! "unclear")));
    ("tables", StatCount (length (tables st)));
    ("figures", length_or_zero (opt_prop (figures st) "images")) ].

Definition renderRecordsTable (st : state) : state * outcome :=
  match buildRecordViews st with
  | None => (st, Threw)
  | Some views =>
      match sortByKey (λ v k, Some (view_prop v k)) views
              (sort_key (recordSort st)) (sort_dir (recordSort st)) with
      | None => (set_views views st, Threw)
      | Some sorted =>
          let st1 :=
            set_recordsTbody (List.map record_cells sorted)
              (set_views sorted st) in
          match count_origins (records st1) ∅ with
          | None => (st1, Threw)
          | Some byOrigin =>
              (set_statsKv (stats_items st1 byOrigin) st1, Done)
          end
      end
  end.

Definition comparison_cols : list string :=
  [ "material"; "property"; "category"; "this_work";
    "paper_cited_literature"; "external_baseline"; "novelty_flag" ].

(** The cells of one row of the comparison table:
    [String(r[c] ?? '')] for each column. *)
Definition comparison_cells (r : value) : option (list string) :=
  mapM (λ c, v ← prop r c; Some (to_string (coalesce v (VStr ""))))
       comparison_cols.

Definition renderComparisonTable (st : state) : state * outcome :=
  match sortByKey prop (comparison st)
          (sort_key (cmpSort st)) (sort_dir (cmpSort st)) with
  | None => (st, Threw)
  | Some rows =>
      match mapM comparison_cells rows with
      | None => (set_comparisonTbody [] st, Threw)
      | Some trs => (set_comparisonTbody trs st, Done)
      end
  end.

(** [rebuildCategoryOptions]: reads every record's category, then
    replaces the options of the category select, which leaves its first
    option, [all], selected. *)
Definition rebuildCategoryOptions (st : state) : state * outcome :=
  match mapM (λ r, prop r "category") (records st) with
  | None => (st, Threw)
  | Some _ =>
      let c := els st in
      (set_els (Controls (searchInput c) (originSelect c) "all"
                  (hardFailOnly c)) st, Done)
  end.

Definition is_object (v : value) : bool :=
  match v with
  | VNull | VArr _ | VObj _ => true
  | _ => false
  end.

(** [Array.isArray(v) ? v : []] *)
Definition array_or_empty (v : value) : list value :=
  match v with
  | VArr xs => xs
  | _ => []
  end.

(** The assignments of [loadJsonObject]; [obj] is an object there, so
    its properties are read without a throw. *)
Definition load_fields (obj : value) (st : state) : state :=
  State obj
    (array_or_empty (opt_prop obj "records"))
    (array_or_empty (opt_prop obj "comparison"))
    (array_or_empty (opt_prop obj "tables"))
    (or_else (opt_prop obj "figures") VNull)
    (array_or_empty (opt_prop obj "logs"))
    (recordSort st) (cmpSort st) (filteredRecordViews st)
    (els st) (page_dom st).

(** [loadJsonObject], up to the records and comparison panes; the
    panes of tables, figures and logs are drawn after them. *)
Definition loadJsonObject (obj : value) (st : state) : state * outcome :=
  if negb (truthy obj) || negb (is_object obj)
  then (st, Alert "Invalid JSON.")
  else
    let st1 := load_fields obj st in
    match rebuildCategoryOptions st1 with
    | (st2, Done) =>
        match renderRecordsTable st2 with
        | (st3, Done) => renderComparisonTable st3
        | other => other
        end
    | other => other
    end.

(** The global replace of the export: every double quote is doubled. *)
Fixpoint escape_quotes (s : string) : string :=
  match s with
  | EmptyString => EmptyString
  | String ch rest =>
      if Ascii.eqb ch (Ascii.ascii_of_nat 34)
      then String ch (String ch (escape_quotes rest))
      else String ch (escape_quotes rest)
  end.

(** One quoted cell of the CSV export. *)
Definition csv_cell (x : value) : string :=
  dquote +:+ escape_quotes (to_string (coalesce x (VStr ""))) +:+ dquote.

Definition csv_cols : list string :=
  [ "material"; "category"; "property"; "value_min"; "value_max";
    "unit_original"; "origin"; "confidence"; "page"; "citations";
    "hard_fail" ].

(** The [row] array built for one record in [exportFilteredCsv]. *)
Definition csv_row (r : value) : option (list value) :=
  m ← prop r "material";
  c ← prop r "category";
  p ← prop r "property";
  lo ← prop r "value_min";
  hi ← prop r "value_max";
  u ← prop r "unit_original";
  o ← prop r "origin";
  cf ← prop r "confidence";
  let pg := getPage r in
  cits ← prop r "citations";
  cj ← method_join (or_else cits (VArr [])) "; ";
  hj ← method_join (or_else (hard_fail_of r) (VArr [])) "; ";
  Some [m; c; p; lo; hi; u; o; cf; pg; VStr cj; VStr hj].

Definition csv_line (r : value) : option string :=
  row ← csv_row r;
  Some (String.concat "," (List.map csv_cell row)).

(** [state.records[v.idx]] *)
Definition record_at (st : state) (v : view) : value :=
  default VUndefined (records st !! idx v).

(** The [lines] array of [exportFilteredCsv], header first. *)
Definition csv_lines (st : state) : option (list string) :=
  lines ← mapM (λ v, csv_line (record_at st v)) (filteredRecordViews st);
  Some (String.concat "," csv_cols :: lines).

(** The text handed to [downloadBlob] by [exportFilteredCsv]. *)
Definition exportFilteredCsv (st : state) : option string :=
  lines ← csv_lines st;
  Some (String.concat newline lines).

Definition clearAll (st : state) : state * outcome :=
  let st1 :=
    State VNull [] [] [] VNull [] (recordSort st) (cmpSort st) [] (els st)
      (Dom [] [] (statsKv (page_dom st))) in
  match rebuildCategoryOptions st1 with
  | (st2, Done) =>
      (set_statsKv [("status", StatValue (VStr "No data loaded."))] st2, Done)
  | other => other
  end.

(** The array [out] that [exportFilteredJson] serializes and hands to
    [downloadBlob]: the record behind each filtered view. *)
Definition exportFilteredJson (st : state) : list value :=
  List.map (record_at st) (filteredRecordViews st).
End viewer.

End Viewer.

(** ** The workflow page: docs/assets/js/workflow.js *)

Module Workflow.
Import JS.

(** [stages[1].sample]: a record as the extraction stage emits it. *)
Definition extraction_sample : value :=
  VObj [ ("material", VStr "PEO-LiTFSI");
         ("property", VStr "ionic_conductivity");
         ("value_min", VNum 1.2e-4);
         ("unit_original", VStr "S/cm");
         ("provenance",
           VObj [ ("page", VNum 5);
                  ("snippet",
                    VStr "...ionic conductivity reached 1.2×10^-4 S/cm at 25°C...") ]) ].

(** [stages[2].sample]: the same record after normalization and checks. *)
Definition normalization_sample : value :=
  VObj [ ("value_min", VNum 1.2e-4);
         ("unit_original", VStr "S/cm");
         ("value_si_min", VNum 0.012);
         ("unit_si", VStr "S/m");
         ("constraints",
           VObj [ ("hard_fail", VArr []);
                  ("soft_warn",
                    VArr [VStr "temperature not explicit in same sentence"]) ]) ].

(** [stages[3].sample]: the comparison row of that material and property. *)
Definition comparison_sample : value :=
  VObj [ ("material", VStr "PEO-LiTFSI");
         ("property", VStr "ionic_conductivity");
         ("this_work", VStr "1.2e-4 S/cm");
         ("paper_cited_literature", VStr "3.0e-5 to 9.0e-5 S/cm");
         ("external_baseline", VStr "1.0e-5 to 8.0e-5 S/cm");
         ("novelty_flag", VStr "possible_outlier_high") ].

End Workflow.

(** ** The pipeline behind the export

    The extraction engine (the [ironclad/] package: units, constraints,
    comparison, export) is not among the sources; the viewer and the
    workflow page only consume what it writes. Its stages are modelled
    here from the specification, sections 3, 4.2, 4.5 and 6. *)

Module Engine.
Import JS.

(** Modelled from the spec: the origin labels and the novelty flags of
    section 3. *)
Inductive origin := this_work | literature | mixed | unclear.

Inductive novelty :=
| none
| possible_outlier_high
| possible_outlier_low
| within_baseline
| no_baseline.

(** Modelled from the spec: the Record of section 3 (the engine's own
    record type is not under src/). *)
Record record := MkRecord {
  material : string;
  property : string;
  category : string;
  value_min : option float;
  value_max : option float;
  unit_original : string;
  value_si_min : option float;
  value_si_max : option float;
  unit_si : option string;
  page : nat;
  snippet : string;
  citations : list string;
  rec_origin : origin;
  confidence : float;
  hard_fail : list string;
  soft_warn : list string;
  method : string;
}.

(** Modelled from the spec: a unit-conversion rule of section 4.2, from an
    original unit of a property to the canonical SI unit of that property
    (the engine's rule table is not under src/). *)
Record unit_rule := MkRule {
  rule_property : string;
  rule_unit : string;
  rule_factor : float;
  rule_si : string;
}.

(** Modelled from the spec: the rule section 4.2 names, conductivity
    reported in S/cm, with factor 100 to S/m. *)
Definition conductivity_rule : unit_rule :=
  MkRule "ionic_conductivity" "S/cm" 100 "S/m".

(** Modelled from the spec: the rule table, with the rule the spec
    names. *)
Definition unit_rules : list unit_rule := [conductivity_rule].

Definition find_rule (rules : list unit_rule) (prop unit : string)
  : option unit_rule :=
  List.find (λ r, String.eqb (rule_property r) prop
                  && String.eqb (rule_unit r) unit) rules.

(** Modelled from the spec: the normalization of section 4.2 (the
    engine's unit module is not under src/):
    [value_si = value_original * factor]; without a rule the SI fields
    stay null and the method records the unsupported unit. *)
Definition normalize (rules : list unit_rule) (r : record) : record :=
  match find_rule rules (property r) (unit_original r) with
  | Some rule =>
      MkRecord (material r) (property r) (category r)
        (value_min r) (value_max r) (unit_original r)
        ((λ v, PrimFloat.mul v (rule_factor rule)) <$> value_min r)
        ((λ v, PrimFloat.mul v (rule_factor rule)) <$> value_max r)
        (match value_min r with Some _ => Some (rule_si rule) | None => None end)
        (page r) (snippet r) (citations r) (rec_origin r) (confidence r)
        (hard_fail r) (soft_warn r) (method r)
  | None =>
      MkRecord (material r) (property r) (category r)
        (value_min r) (value_max r) (unit_original r)
        None None None
        (page r) (snippet r) (citations r) (rec_origin r) (confidence r)
        (hard_fail r) (soft_warn r) "unsupported_unit"
  end.

(** A closed range of values, minimum first. *)
Definition range : Type := float * float.

Definition fmin (a b : float) : float := if PrimFloat.ltb b a then b else a.
Definition fmax (a b : float) : float := if PrimFloat.ltb a b then b else a.

Definition hull (a b : range) : range := (fmin a.1 b.1, fmax a.2 b.2).

(** The min-max range over a family of ranges; none for the empty family. *)
Definition hull_all (rs : list range) : option range :=
  match rs with
  | [] => None
  | r :: rest => Some (foldl hull r rest)
  end.

Definition overlaps (a b : range) : bool :=
  PrimFloat.leb a.1 b.2 && PrimFloat.leb b.1 a.2.

(** Modelled from the spec: the novelty rule of section 4.5, in its
    priority order (the engine's comparison module is not under src/).
    The union of the literature and baseline ranges is kept as the family
    of the ranges that exist. *)
Definition novelty_flag (tw lit base : option range) : novelty :=
  let union := omap id [lit; base] in
  match hull_all union with
  | None => no_baseline
  | Some u =>
      match tw with
      | None => none
      | Some t =>
          if existsb (overlaps t) union then within_baseline
          else if PrimFloat.ltb u.2 t.1 then possible_outlier_high
          else if PrimFloat.ltb t.2 u.1 then possible_outlier_low
          else none
      end
  end.

(** Modelled from the spec: the values a Record contributes to a range of
    section 4.5, SI when available and the original ones otherwise; a
    point value is the range from a value to itself. *)
Definition record_bounds (r : record) : option range :=
  match value_si_min r with
  | Some lo => Some (lo, default lo (value_si_max r))
  | None =>
      match value_min r with
      | Some lo => Some (lo, default lo (value_max r))
      | None => None
      end
  end.

(** Modelled from the spec: a Record takes part in the aggregation only
    when its hard_fail set is empty (sections 3 and 4.5). *)
Definition usable (r : record) : bool :=
  match hard_fail r with
  | [] => true
  | _ :: _ => false
  end.

(** Modelled from the spec: the grouping key of section 4.5, and the
    origins that count towards the this_work and the cited-literature
    range. *)
Definition group_key (r : record) : string * string * string :=
  (material r, property r, category r).

Definition counts_as_this_work (r : record) : bool :=
  match rec_origin r with
  | this_work | mixed => true
  | _ => false
  end.

Definition counts_as_literature (r : record) : bool :=
  match rec_origin r with
  | literature | mixed => true
  | _ => false
  end.

(** Modelled from the spec: the baseline entry of section 3. *)
Record baseline_entry := MkBaseline {
  b_material : string;
  b_property : string;
  b_value_min : float;
  b_value_max : float;
  b_unit_si : string;
}.

(** Modelled from the spec: the ComparisonRow of section 3, with its
    ranges before they are formatted. *)
Record comparison_row := MkRow {
  row_material : string;
  row_property : string;
  row_category : string;
  row_this_work : option range;
  row_literature : option range;
  row_baseline : option range;
  row_novelty : novelty;
}.

(** Modelled from the spec: the ranges of a row (section 4.5): min-max
    over the selected Records of the group, and over the baseline entries
    of the same material and property. *)
Definition group_range (select : record → bool) (k : string * string * string)
    (recs : list record) : option range :=
  hull_all
    (omap record_bounds
       (List.filter (λ r, select r && bool_decide (group_key r = k)) recs)).

Definition baseline_range (k : string * string * string)
    (baseline : list baseline_entry) : option range :=
  hull_all
    (List.map (λ b, (b_value_min b, b_value_max b))
       (List.filter (λ b, String.eqb (b_material b) k.1.1
                          && String.eqb (b_property b) k.1.2) baseline)).

Definition make_row (recs : list record) (baseline : list baseline_entry)
    (k : string * string * string) : comparison_row :=
  let tw := group_range counts_as_this_work k recs in
  let lit := group_range counts_as_literature k recs in
  let base := baseline_range k baseline in
  MkRow k.1.1 k.1.2 k.2 tw lit base (novelty_flag tw lit base).

(** Modelled from the spec: the aggregation of section 4.5 (the engine's
    comparison module is not under src/): the Records without hard_fail
    are grouped by material, property and category, one row per group. *)
Definition comparison_rows (recs : list record)
    (baseline : list baseline_entry) : list comparison_row :=
  let ok := List.filter usable recs in
  List.map (make_row ok baseline) (remove_dups (List.map group_key ok)).

(** Modelled from the spec: the document-level export object of section 6
    (the engine's export writer is not under src/). Table regions and
    figure images are external and kept as they come. *)
Record export := MkExport {
  doc_id : string;
  exp_records : list record;
  exp_comparison : list comparison_row;
  exp_tables : list value;
  exp_images : list value;
  exp_logs : list string;
}.

(** Modelled from the spec: what one run over a document exports: every
    Record, hard_fail or not, and the rows aggregated from them. *)
Definition export_document (doc : string) (recs : list record)
    (baseline : list baseline_entry) (tables images : list value)
    (logs : list string) : export :=
  MkExport doc recs (comparison_rows recs baseline) tables images logs.

(** Modelled from the spec: the labels as the schema spells them. *)
Definition origin_name (o : origin) : string :=
  match o with
  | this_work => "this_work"
  | literature => "literature"
  | mixed => "mixed"
  | unclear => "unclear"
  end.

Definition novelty_name (n : novelty) : string :=
  match n with
  | none => "none"
  | possible_outlier_high => "possible_outlier_high"
  | possible_outlier_low => "possible_outlier_low"
  | within_baseline => "within_baseline"
  | no_baseline => "no_baseline"
  end.

(** Modelled from the spec: a Record under the field names of section 3,
    as the data-exchange schema of section 6 carries it. *)
Definition record_to_js (r : record) : value :=
  VObj [ ("material", VStr (material r));
         ("property", VStr (property r));
         ("category", VStr (category r));
         ("value_min", number_or_null (value_min r));
         ("value_max", number_or_null (value_max r));
         ("unit_original", VStr (unit_original r));
         ("value_si_min", number_or_null (value_si_min r));
         ("value_si_max", number_or_null (value_si_max r));
         ("unit_si", string_or_null (unit_si r));
         ("provenance",
           VObj [ ("page", VNum (float_of_nat (page r)));
                  ("snippet", VStr (snippet r)) ]);
         ("citations", VArr (List.map VStr (citations r)));
         ("origin", VStr (origin_name (rec_origin r)));
         ("confidence", VNum (confidence r));
         ("constraints",
           VObj [ ("hard_fail", VArr (List.map VStr (hard_fail r)));
                  ("soft_warn", VArr (List.map VStr (soft_warn r))) ]);
         ("method", VStr (method r)) ].

Section export.
(** How a range is written out for a reader. *)
Context (format_range : range → string).

Definition range_to_js (o : option range) : value :=
  match o with
  | Some r => VStr (format_range r)
  | None => VNull
  end.

(** Modelled from the spec: a ComparisonRow under the field names of
    section 3. *)
Definition row_to_js (row : comparison_row) : value :=
  VObj [ ("material", VStr (row_material row));
         ("property", VStr (row_property row));
         ("category", VStr (row_category row));
         ("this_work", range_to_js (row_this_work row));
         ("paper_cited_literature", range_to_js (row_literature row));
         ("external_baseline", range_to_js (row_baseline row));
         ("novelty_flag", VStr (novelty_name (row_novelty row))) ].

(** Modelled from the spec: the export object under the field names of
    section 6. *)
Definition export_to_js (e : export) : value :=
  VObj [ ("doc_id", VStr (doc_id e));
         ("records", VArr (List.map record_to_js (exp_records e)));
         ("comparison", VArr (List.map row_to_js (exp_comparison e)));
         ("tables", VArr (exp_tables e));
         ("figures", VObj [ ("images", VArr (exp_images e)) ]);
         ("logs", VArr (List.map VStr (exp_logs e))) ].
End export.

End Engine.

(** ** A runtime to evaluate the model on documents

    ASCII case folding and trimming, an insertion sort, and number
    printing by exact arithmetic on the binary64 value. [number_to_string]
    and [string_to_number] cover the integers, which is what the sample
    documents put in text cells. *)

Module Sample.
Import JS.

Definition lower_ascii (c : Ascii.ascii) : Ascii.ascii :=
  let n := Ascii.nat_of_ascii c in
  if (65 <=? n) && (n <=? 90) then Ascii.ascii_of_nat (n + 32) else c.

Fixpoint lower (s : string) : string :=
  match s with
  | EmptyString => EmptyString
  | String c rest => String (lower_ascii c) (lower rest)
  end.

Definition is_blank (c : Ascii.ascii) : bool :=
  let n := Ascii.nat_of_ascii c in
  (n =? 32) || ((9 <=? n) && (n <=? 13)).

Fixpoint trim_left (s : string) : string :=
  match s with
  | EmptyString => EmptyString
  | String c rest => if is_blank c then trim_left rest else s
  end.

Definition trim_both (s : string) : string :=
  String.rev (trim_left (String.rev (trim_left s))).

Fixpoint insert_by {A} (cmp : A → A → Z) (x : A) (l : list A) : list A :=
  match l with
  | [] => [x]
  | y :: rest =>
      if (cmp x y <=? 0)%Z then x :: l else y :: insert_by cmp x rest
  end.

Definition insertion_sort (A : Type) (cmp : A → A → Z) (l : list A) : list A :=
  foldr (insert_by cmp) [] l.

(** The binary64 value as sign, mantissa [m] and exponent [e]: [m * 2^e]. *)
Definition exact (x : float) : option (bool * Z * Z) :=
  match Prim2SF x with
  | S754_zero s => Some (s, 0, 0)%Z
  | S754_finite s m e => Some (s, Zpos m, e)
  | _ => None
  end.

(** [m * 2^e * 10^p] rounded to the nearest integer, the larger one on a
    tie. *)
Definition scaled (m e p : Z) : Z :=
  let num := (m * (if 0 <=? e then 2 ^ e else 1)
                * (if 0 <=? p then 10 ^ p else 1))%Z in
  let den := ((if e <? 0 then 2 ^ (- e) else 1)
              * (if p <? 0 then 10 ^ (- p) else 1))%Z in
  ((2 * num + den) / (2 * den))%Z.

Fixpoint zeros (n : nat) : string :=
  match n with
  | 0 => EmptyString
  | S k => String (Ascii.ascii_of_nat 48) (zeros k)
  end.

(** The digits of [n] with a point before the last [f] of them. *)
Definition with_point (n : Z) (f : nat) : string :=
  let digits := pretty n in
  let padded := zeros (S f - String.length digits) +:+ digits in
  let k := String.length padded - f in
  match f with
  | 0 => padded
  | _ => String.substring 0 k padded +:+ "." +:+ String.substring k f padded
  end.

Definition fixed (x : float) (f : nat) : string :=
  match exact x with
  | Some (s, m, e) =>
      (if s && negb (m =? 0)%Z then "-" else "")
      +:+ with_point (scaled m e (Z.of_nat f)) f
  | None => if PrimFloat.is_nan x then "NaN"
            else if PrimFloat.ltb x 0 then "-Infinity" else "Infinity"
  end.

(** The largest [k], searched downwards from [k0], with [10^k <= m * 2^e]. *)
Fixpoint decimal_exponent (fuel : nat) (k0 m e : Z) : Z :=
  match fuel with
  | 0 => k0
  | S fuel' =>
      let lhs := ((if 0 <=? k0 then 10 ^ k0 else 1)
                  * (if e <? 0 then 2 ^ (- e) else 1))%Z in
      let rhs := (m * (if 0 <=? e then 2 ^ e else 1)
                  * (if k0 <? 0 then 10 ^ (- k0) else 1))%Z in
      if (lhs <=? rhs)%Z then k0 else decimal_exponent fuel' (k0 - 1) m e
  end.

Definition exponential (x : float) (f : nat) : string :=
  match exact x with
  | Some (s, m, e) =>
      if (m =? 0)%Z then with_point 0 f +:+ "e+0"
      else
        let k := decimal_exponent 800 400 m e in
        let n := scaled m e (Z.of_nat f - k) in
        let '(n, k) := if (10 ^ Z.of_nat (S f) <=? n)%Z
                       then (n / 10, k + 1)%Z else (n, k) in
        (if s then "-" else "") +:+ with_point n f
        +:+ "e" +:+ (if (0 <=? k)%Z then "+" else "") +:+ pretty k
  | None => if PrimFloat.is_nan x then "NaN"
            else if PrimFloat.ltb x 0 then "-Infinity" else "Infinity"
  end.

Definition integer_of (x : float) : option Z :=
  match exact x with
  | Some (s, m, e) =>
      let den := (if e <? 0 then 2 ^ (- e) else 1)%Z in
      let num := (m * (if 0 <=? e then 2 ^ e else 1))%Z in
      if (num mod den =? 0)%Z
      then Some ((if s then -1 else 1) * (num / den))%Z
      else None
  | None => None
  end.

Definition print_number (x : float) : string :=
  match integer_of x with
  | Some z => pretty z
  | None => fixed x 17
  end.

Fixpoint digits_value (acc : Z) (s : string) : option Z :=
  match s with
  | EmptyString => Some acc
  | String c rest =>
      let n := Ascii.nat_of_ascii c in
      if (48 <=? n) && (n <=? 57)
      then digits_value (10 * acc + Z.of_nat (n - 48))%Z rest
      else None
  end.

Definition read_number (s : string) : float :=
  match digits_value 0 (trim_both s) with
  | Some z => PrimFloat.of_uint63 (Uint63.of_Z z)
  | None => PrimFloat.nan
  end.

Definition runtime : Runtime.
Proof.
  refine {| number_to_string := print_number;
            to_fixed := fixed;
            to_exponential := exponential;
            string_to_number := read_number;
            to_lower_case := lower;
            trim := trim_both;
            array_sort := insertion_sort |}.
  intros A cmp l. unfold insertion_sort.
  induction l as [|x l IH]; simpl; [reflexivity|].
  rewrite <- IH at 2. generalize (foldr (insert_by cmp) [] l) as k.
  clear. intros k. induction k as [|y k IHk]; simpl; [reflexivity|].
  destruct (cmp x y <=? 0)%Z; [reflexivity|].
  rewrite IHk. apply Permutation_swap.
Defined.

(** A range written out for a reader. *)
Definition format_range (r : Engine.range) : string :=
  exponential r.1 1 +:+ " to " +:+ exponential r.2 1.

(** The page before any document is loaded: nothing typed, no filter
    chosen, and the sort keys of [state]. *)
Definition initial_state : Viewer.state :=
  Viewer.State VNull [] [] [] VNull []
    (Viewer.SortState "confidence" "desc") (Viewer.SortState "material" "asc")
    [] (Viewer.Controls "" "all" "all" false) (Viewer.Dom [] [] []).

(** The measurement of the workflow page, as extracted. *)
Definition measured : Engine.record :=
  Engine.MkRecord "PEO-LiTFSI" "ionic_conductivity" "electrolyte"
    (Some 1.2e-4%float) None "S/cm" None None None 5
    "In this work, ionic conductivity reached 1.2e-4 S/cm at 25 C" []
    Engine.this_work 1 [] ["temperature not explicit in same sentence"]
    "pattern".

(** A range the paper cites. *)
Definition cited : Engine.record :=
  Engine.MkRecord "PEO-LiTFSI" "ionic_conductivity" "electrolyte"
    (Some 3.0e-5%float) (Some 9.0e-5%float) "S/cm" None None None 2
    "Values of 3.0e-5 to 9.0e-5 S/cm were reported previously [12]" ["[12]"]
    Engine.literature 1 [] [] "pattern".

(** A record that failed the cross-field check. *)
Definition inverted : Engine.record :=
  Engine.MkRecord "PEO-LiTFSI" "ionic_conductivity" "electrolyte"
    (Some 9.0e-5%float) (Some 3.0e-5%float) "S/cm" None None None 3
    "Ref. 3 gives 9.0e-5 to 3.0e-5 S/cm" ["Ref. 3"]
    Engine.literature 1 ["inverted_range"; "unit check skipped"] [] "pattern".

Definition baseline : list Engine.baseline_entry :=
  [ Engine.MkBaseline "PEO-LiTFSI" "ionic_conductivity" 1.0e-3 8.0e-3 "S/m" ].

Definition sample_records : list Engine.record :=
  List.map (Engine.normalize Engine.unit_rules) [measured; cited; inverted].

(** What the pipeline exports for these records, and the page once the
    export is loaded. *)
Definition document : Engine.export :=
  Engine.export_document "paper_demo_001" sample_records baseline [] []
    ["3 records extracted"].

Definition loaded_state : Viewer.state :=
  (@Viewer.loadJsonObject runtime
     (Engine.export_to_js format_range document) initial_state).1.

(** A document loaded as parsed JSON, with fields missing: a record
    without an origin, a comparison row with two fields only. *)
Definition sparse_document : value :=
  VObj [ ("records",
           VArr [ VObj [ ("material", VStr "PEO"); ("value_min", VNum 7) ];
                  VObj [ ("material", VStr "PVDF"); ("origin", VStr "mixed");
                         ("value_min", VNum 2); ("value_max", VNum 3);
                         ("citations", VArr [VStr "[4]"; VStr "[5]"]) ] ]);
         ("comparison",
           VArr [ VObj [ ("material", VStr "PEO");
                         ("novelty_flag", VStr "no_baseline") ] ]) ].

Definition sparse_state : Viewer.state :=
  (@Viewer.loadJsonObject runtime sparse_document initial_state).1.

(** A document whose only record has a string where the citations
    sequence should be. *)
Definition malformed_document : value :=
  VObj [ ("records",
           VArr [ VObj [ ("material", VStr "PEO");
                         ("citations", VStr "[4]") ] ]) ].

Definition malformed_state : Viewer.state :=
  (@Viewer.loadJsonObject runtime malformed_document initial_state).1.

End Sample.

(** ** The statements of the specification, in its own words *)

Module Contract.
Import JS Viewer.

(** The column sets of the flat projections (section 6). *)
Definition records_columns : list string :=
  [ "material"; "category"; "property"; "value_min"; "value_max";
    "unit_original"; "origin"; "confidence"; "page"; "citations";
    "hard_fail" ].






(** The entries of [constraints.hard_fail]; none when it is absent. *)
Definition hard_fail_entries (r : value) : list value :=
  array_or_empty (hard_fail_of r).

Definition has_hard_fail (r : value) : bool :=
  match hard_fail_entries r with
  | [] => false
  | _ :: _ => true
  end.

(** A point value: [value_max] equals [value_min] or is null. *)
Definition point_value (lo : float) (hi : option float) : bool :=
  match hi with
  | None => true
  | Some b => PrimFloat.eqb b lo
  end.

(** The origin of a record is one of the four labels, or absent. *)
Definition origin_known (r : value) : bool :=
  match r with
  | VObj fields =>
      match own fields "origin" with
      | VUndefined => true
      | VStr o =>
          String.eqb o "this_work" || String.eqb o "literature"
          || String.eqb o "mixed" || String.eqb o "unclear"
      | _ => false
      end
  | _ => false
  end.

(** The count shown under a label of the statistics list. *)
Fixpoint shown_count (items : list (string * stat)) (label : string)
  : option nat :=
  match items with
  | [] => None
  | (k, v) :: rest =>
      if String.eqb k label
      then match v with StatCount n => Some n | StatValue _ => None end
      else shown_count rest label
  end.

Section contract.
Context `{Runtime}.

(** The cell of a column of the records projection: the Record field of
    that name, the page from the provenance, citations and hard_fail
    joined from their sequences. *)
Definition record_field (r : value) (col : string) : value :=
  if String.eqb col "page" then opt_prop (opt_prop r "provenance") "page"
  else if String.eqb col "citations"
       then VStr (array_join "; " (array_or_empty (opt_prop r "citations")))
  else if String.eqb col "hard_fail"
       then VStr (array_join "; " (hard_fail_entries r))
  else opt_prop r col.

Definition projection_line (r : value) : string :=
  String.concat ","
    (List.map (λ col, csv_cell (record_field r col)) records_columns).

(** The flat projection of a sequence of records: the header, then one
    line per record. *)
Definition csv_projection (recs : list value) : list string :=
  String.concat "," records_columns :: List.map projection_line recs.


(** A select filter: passed when [all] is chosen or the field equals the
    choice. *)
Definition selected (choice : string) (field : value) : bool :=
  String.eqb choice "all"
  || strict_eq (or_else field (VStr "")) (VStr choice).

(** The lowercased concatenation of material, property, category,
    provenance snippet and joined citations, a space between the parts
    and between the citations. *)
Definition searched_text (r : value) : string :=
  to_lower_case
    (array_join " "
       [ opt_prop r "material"; opt_prop r "property"; opt_prop r "category";
         opt_prop (opt_prop r "provenance") "snippet";
         VStr (array_join " " (array_or_empty (opt_prop r "citations"))) ]).

(** The four filters, conjointly. *)
Definition passes_filters (c : controls) (r : value) : bool :=
  selected (originSelect c) (opt_prop r "origin")
  && selected (categorySelect c) (opt_prop r "category")
  && (negb (hardFailOnly c) || has_hard_fail r)
  && includes (searched_text r) (to_lower_case (trim (searchInput c))).

(** What [valueDisplay] shows for a record of the data model. *)
Definition displayed_value (lo hi : option float) : string :=
  match lo with
  | None => ""
  | Some a =>
      if point_value a hi then fmtValue (VNum a)
      else fmtValue (VNum a) +:+ en_dash +:+ fmtValue (number_or_null hi)
  end.
End contract.

(** The records of a list with their positions, counted from [i]. *)
Fixpoint indexed (i : nat) (recs : list value) : list (nat * value) :=
  match recs with
  | [] => []
  | r :: rest => (i, r) :: indexed (S i) rest
  end.

Definition four_counts (byOrigin : gmap string nat) : nat :=
  default 0 (byOrigin !! "this_work") + default 0 (byOrigin !! "literature")
  + default 0 (byOrigin !! "mixed") + default 0 (byOrigin !! "unclear").

End Contract.

(** ** The rest of the viewer: escaping, paths, the panes of tables,
    figures and details, the sort headers *)

Module Panes.
Import JS Viewer.

(** The characters [sanitize] and [fileNameFromPath] look for. *)
Definition ampersand : Ascii.ascii := Ascii.ascii_of_nat 38.
Definition less_than : Ascii.ascii := Ascii.ascii_of_nat 60.
Definition greater_than : Ascii.ascii := Ascii.ascii_of_nat 62.
Definition double_quote : Ascii.ascii := Ascii.ascii_of_nat 34.
Definition apostrophe : Ascii.ascii := Ascii.ascii_of_nat 39.
Definition slash : Ascii.ascii := Ascii.ascii_of_nat 47.
Definition backslash : Ascii.ascii := Ascii.ascii_of_nat 92.

(** The replacement table of [sanitize]. *)
Definition entity (c : Ascii.ascii) : option string :=
  if Ascii.eqb c ampersand then Some "&amp;"
  else if Ascii.eqb c less_than then Some "&lt;"
  else if Ascii.eqb c greater_than then Some "&gt;"
  else if Ascii.eqb c double_quote then Some "&quot;"
  else if Ascii.eqb c apostrophe then Some "&#39;"
  else None.

(** The global replace of [sanitize]. *)
Fixpoint replace_markup (s : string) : string :=
  match s with
  | EmptyString => EmptyString
  | String c rest =>
      match entity c with
      | Some e => e +:+ replace_markup rest
      | None => String c (replace_markup rest)
      end
  end.

(** A character that is none of the angle brackets and quotes that
    [sanitize] replaces. *)
Definition markup_free (c : Ascii.ascii) : Prop :=
  c ≠ less_than ∧ c ≠ greater_than ∧ c ≠ double_quote ∧ c ≠ apostrophe.

(** [/[\\/]/]: a path separator. *)
Definition is_separator (c : Ascii.ascii) : bool :=
  Ascii.eqb c slash || Ascii.eqb c backslash.

(** [s.split(/[\\/]/)]: the parts between separators; one empty part for
    the empty string. *)
Fixpoint split_path (s : string) : list string :=
  match s with
  | EmptyString => [EmptyString]
  | String c rest =>
      if is_separator c then EmptyString :: split_path rest
      else match split_path rest with
           | [] => [String c EmptyString]
           | part :: parts => String c part :: parts
           end
  end.

(** A text without path separator. *)
Definition separator_free (s : string) : Prop :=
  Forall (λ c, is_separator c = false) (String.list_ascii_of_string s).

(** [parts[parts.length-1]] *)
Definition last_part (s : string) : string :=
  List.last (split_path s) EmptyString.

(** [xs.forEach], [xs.map]: only arrays have them. *)
Definition as_array (v : value) : option (list value) :=
  match v with
  | VArr xs => Some xs
  | _ => None
  end.

(** [v?.[0]] *)
Definition first_element (v : value) : value :=
  match v with
  | VArr (x :: _) => x
  | VStr (String c _) => VStr (String c EmptyString)
  | VObj fields => own fields "0"
  | _ => VUndefined
  end.

(** One table of the tables pane. *)
Record table_panel := TablePanel {
  panel_open : bool;
  panel_label : string;
  panel_meta : string;
  panel_header : list string;
  panel_body : list (list string);
}.

(** One figure of the figures pane: the image element, where there is
    one, with its source and alternative text, and the caption. *)
Record thumb := Thumb {
  thumb_image : option (string * string);
  thumb_caption : string;
}.

(** What a pane holds once drawn: its placeholder or its items. *)
Inductive area (A : Type) :=
| Placeholder (text : string)
| Drawn (items : list A).
Arguments Placeholder {A} text.
Arguments Drawn {A} items.


(** The table a sort header belongs to. *)
Inductive which_table := RecordsTable | ComparisonTable.

Definition set_recordSort (s : sort_state) (st : state) : state :=
  State (data st) (records st) (comparison st) (tables st) (figures st)
    (logs st) s (cmpSort st) (filteredRecordViews st) (els st) (page_dom st).

Definition set_cmpSort (s : sort_state) (st : state) : state :=
  State (data st) (records st) (comparison st) (tables st) (figures st)
    (logs st) (recordSort st) s (filteredRecordViews st) (els st)
    (page_dom st).

(** The update of a sort header's click: the direction flips on the
    current key, a new key starts ascending. *)
Definition next_sort (key : string) (s : sort_state) : sort_state :=
  if String.eqb (sort_key s) key
  then SortState (sort_key s)
         (if String.eqb (sort_dir s) "asc" then "desc" else "asc")
  else SortState key "asc".

(** The two tests of [resolveImageUrl] on a path: it starts with
    [http://] or [https://]; it has no colon and does not start with a
    slash. *)
Definition is_web (s : string) : bool :=
  String.prefix "http://" s || String.prefix "https://" s.

Definition is_relative (s : string) : bool :=
  negb (includes s ":") && negb (String.prefix "/" s).


(** A caption that is a string, or absent. *)
Definition plain_caption (img : value) : bool :=
  match opt_prop img "caption" with
  | VStr _ | VUndefined | VNull => true
  | _ => false
  end.

(** A category that is a string, or absent. *)
Definition plain_category (r : value) : bool :=
  match opt_prop r "category" with
  | VStr _ | VUndefined | VNull => true
  | _ => false
  end.

(** [state.imageFilesByName] after the image picker changed: one entry
    per file name, the object URL made for the last file of that name. *)
Definition image_files (files : list (string * string)) : gmap string string :=
  foldl (λ m f, <[f.1 := f.2]> m) ∅ files.

Section panes.
Context `{Runtime}.

Definition sanitize (v : value) : string :=
  replace_markup (to_string (coalesce v (VStr ""))).

Definition fileNameFromPath (p : value) : string :=
  if truthy p then last_part (to_string p) else "".

(** [resolveImageUrl] over [state.imageFilesByName]; [Some None] is the
    null it returns, [None] the TypeError on a path that is no string. *)
Definition resolveImageUrl (files : gmap string string) (img : value)
  : option (option string) :=
  let p := opt_prop img "path" in
  if negb (truthy p) then Some None
  else
    let base := fileNameFromPath p in
    match p with
    | VStr s =>
        if is_web s then Some (Some s)
        else if is_relative s then Some (Some s)
        else Some (files !! base)
    | _ => None
    end.

(** [String(x ?? '')] *)
Definition cell_text (x : value) : string :=
  to_string (coalesce x (VStr "")).

(** The header cells of a table: its header, or [col1], [col2], ... for
    the first row when the header has no length. *)
Definition table_header (t : value) : option (list string) :=
  hdr ← prop t "header";
  let header := or_else hdr (VArr []) in
  if has_length header
  then cells ← as_array header; Some (List.map cell_text cells)
  else
    rows ← prop t "rows";
    cols ← as_array (or_else (first_element rows) (VArr []));
    Some (imap (λ j _, "col" +:+ to_string (VNum (float_of_nat (j + 1))))
            cols).

(** The body of a table: its first twenty rows. *)
Definition table_body (t : value) : option (list (list string)) :=
  rows ← prop t "rows";
  rs ← as_array (or_else rows (VArr []));
  mapM (λ row, cells ← as_array (or_else row (VArr []));
               Some (List.map cell_text cells))
       (take 20 rs).

Definition table_meta (t : value) : option string :=
  m ← prop t "meta";
  let meta := or_else m (VObj []) in
  let number := opt_prop meta "table_number" in
  let caption := opt_prop meta "caption" in
  let parts :=
    (if strict_eq number VUndefined then []
     else ["table_number: " +:+ to_string number])
    ++ (if truthy caption then ["caption: " +:+ to_string caption] else []) in
  Some (String.concat " · " parts).

Definition table_label (i : nat) (t : value) : option string :=
  id ← prop t "table_id";
  let tid :=
    or_else id (VStr ("T" +:+ to_string (VNum (float_of_nat (i + 1))))) in
  pg ← prop t "page";
  let page := if truthy pg then "p." +:+ to_string pg else "" in
  Some (trim (to_string tid +:+ " " +:+ page)).

(** The panel drawn for table [i]. *)
Definition table_panel_of (i : nat) (t : value) : option table_panel :=
  label ← table_label i t;
  meta ← table_meta t;
  header ← table_header t;
  body ← table_body t;
  Some (TablePanel (i =? 0) label meta header body).

(** The loop of [renderTables], from table [i] on. *)
Fixpoint table_panels (i : nat) (ts : list value) : option (list table_panel) :=
  match ts with
  | [] => Some []
  | t :: rest =>
      p ← table_panel_of i t;
      ps ← table_panels (S i) rest;
      Some (p :: ps)
  end.

(** What [renderTables] leaves in the tables pane; [None] when it
    throws. *)
Definition renderTables (st : state) : option (area table_panel) :=
  match tables st with
  | [] => Some (Placeholder "(No tables in JSON)")
  | ts => panels ← table_panels 0 ts; Some (Drawn panels)
  end.

(** The text after the dash of a caption, and the alternative text of an
    image: the caption, else the file name, else a fixed text. *)
Definition caption_or_name (img : value) (fallback : string) : option string :=
  cap ← prop img "caption";
  if truthy cap then Some (to_string cap)
  else
    p ← prop img "path";
    Some (to_string (or_else (VStr (fileNameFromPath p)) (VStr fallback))).

Definition thumb_of (files : gmap string string) (img : value) : option thumb :=
  url ← resolveImageUrl files img;
  image ←
    (match url with
     | Some (String c u) =>
         alt ← caption_or_name img "figure";
         Some (Some (String c u, alt))
     | _ => Some None
     end);
  pg ← prop img "page";
  ft ← prop img "figure_type";
  let bits :=
    (if truthy pg then [VStr ("p." +:+ to_string pg)] else [])
    ++ (if truthy ft then [ft] else []) in
  let prefix :=
    match bits with
    | [] => ""
    | _ => array_join " · " bits +:+ " — "
    end in
  text ← caption_or_name img "(no caption)";
  Some (Thumb image (prefix +:+ text)).

(** What [renderFigures] leaves in the figures pane; [None] when it
    throws. *)
Definition renderFigures (files : gmap string string) (st : state)
  : option (area thumb) :=
  let imgs := or_else (opt_prop (figures st) "images") (VArr []) in
  if negb (has_length imgs) then Some (Placeholder "(No figures in JSON)")
  else
    items ← as_array imgs;
    thumbs ← mapM (thumb_of files) items;
    Some (Drawn thumbs).



(** The click on a sort header of [hookSort]. *)
Definition click_sort (which : which_table) (key : string) (st : state)
  : state * outcome :=
  match which with
  | RecordsTable =>
      renderRecordsTable (set_recordSort (next_sort key (recordSort st)) st)
  | ComparisonTable =>
      renderComparisonTable (set_cmpSort (next_sort key (cmpSort st)) st)
  end.

(** [SameValueZero], the equality of a [Set]: strict equality, with NaN
    equal to itself. *)
Definition same_value_zero (a b : value) : bool :=
  match a, b with
  | VNum x, VNum y =>
      PrimFloat.eqb x y || (PrimFloat.is_nan x && PrimFloat.is_nan y)
  | _, _ => strict_eq a b
  end.

(** [new Set(xs)] in insertion order. *)
Fixpoint set_of (xs : list value) (seen : list value) : list value :=
  match xs with
  | [] => seen
  | x :: rest =>
      if existsb (same_value_zero x) seen then set_of rest seen
      else set_of rest (seen ++ [x])
  end.

(** The comparator of a [sort()] without argument: by the strings. *)
Definition default_compare (a b : value) : Z :=
  if String.ltb (to_string a) (to_string b) then (-1)%Z
  else if String.ltb (to_string b) (to_string a) then 1%Z
  else 0%Z.

(** The option values of the category select after
    [rebuildCategoryOptions]. *)
Definition category_options (st : state) : option (list string) :=
  cats ← mapM (λ r, prop r "category") (records st);
  let distinct := set_of (List.filter truthy cats) [] in
  Some ("all" :: List.map to_string (array_sort value default_compare distinct)).
End panes.

End Panes.

(** ** The workflow page: its stages and [renderStage] *)

Module Stages.
Import JS.







End Stages.

(** ** Readers, to state that what is written can be read back *)

Module Reader.
Import JS Viewer Panes.

(** A reader of markup text: an entity of [sanitize] stands for its
    character. [skip] counts the characters of an entity still to pass. *)
Fixpoint read_markup (skip : nat) (s : string) : string :=
  match s with
  | EmptyString => EmptyString
  | String c rest =>
      match skip with
      | S k => read_markup k rest
      | 0 =>
          if Ascii.eqb c ampersand then
            if String.prefix "amp;" rest
            then String ampersand (read_markup 4 rest)
            else if String.prefix "lt;" rest
            then String less_than (read_markup 3 rest)
            else if String.prefix "gt;" rest
            then String greater_than (read_markup 3 rest)
            else if String.prefix "quot;" rest
            then String double_quote (read_markup 5 rest)
            else if String.prefix "#39;" rest
            then String apostrophe (read_markup 4 rest)
            else String c (read_markup 0 rest)
          else String c (read_markup 0 rest)
      end
  end.

(** A reader of comma-separated text with quoted fields: inside quotes a
    doubled quote is a quote and commas and line feeds are data; outside,
    a comma ends the field and a line feed ends the row. *)
Inductive csv_position :=
| FieldStart
| Unquoted
| Quoted
| QuoteSeen.

Definition comma : Ascii.ascii := Ascii.ascii_of_nat 44.
Definition line_feed : Ascii.ascii := Ascii.ascii_of_nat 10.

Definition push (field : string) (c : Ascii.ascii) : string :=
  field +:+ String c EmptyString.

Fixpoint read_csv_from (pos : csv_position) (field : string)
    (row : list string) (s : string) : list (list string) :=
  match s with
  | EmptyString => [row ++ [field]]
  | String c rest =>
      match pos with
      | Quoted =>
          if Ascii.eqb c double_quote
          then read_csv_from QuoteSeen field row rest
          else read_csv_from Quoted (push field c) row rest
      | _ =>
          if Ascii.eqb c double_quote
          then match pos with
               | FieldStart => read_csv_from Quoted field row rest
               | QuoteSeen => read_csv_from Quoted (push field c) row rest
               | _ => read_csv_from Unquoted (push field c) row rest
               end
          else if Ascii.eqb c comma
          then read_csv_from FieldStart EmptyString (row ++ [field]) rest
          else if Ascii.eqb c line_feed
          then (row ++ [field]) :: read_csv_from FieldStart EmptyString [] rest
          else read_csv_from Unquoted (push field c) row rest
      end
  end.

Definition read_csv (s : string) : list (list string) :=
  read_csv_from FieldStart EmptyString [] s.

End Reader.

(** ** More documents to evaluate the model on *)

Module Gallery.
Import JS.

(** A document with two tables and three figures. *)
Definition tabled_document : value :=
  VObj [ ("tables",
           VArr [ VObj [ ("table_id", VStr "T-A"); ("page", VNum 4);
                         ("header", VArr [VStr "sample"; VStr "sigma"]);
                         ("rows", VArr [ VArr [VStr "PEO"; VNum 1];
                                         VArr [VStr "PVDF"; VNull] ]) ];
                  VObj [ ("rows", VArr [ VArr [VStr "a"; VStr "b"; VStr "c"] ]) ] ]);
         ("figures",
           VObj [ ("images",
                    VArr [ VObj [ ("path", VStr "https://example.org/f1.png");
                                  ("caption", VStr "Figure 1") ];
                           VObj [ ("path", VStr "assets/demo/f2.png");
                                  ("page", VNum 3) ];
                           VObj [ ("path", VStr "C:\out\images\f3.png") ] ]) ]) ].

Definition tabled_state : Viewer.state :=
  (@Viewer.loadJsonObject Sample.runtime tabled_document
     Sample.initial_state).1.

(** The files picked for the figures: two of the same name. *)
Definition picked_files : list (string * string) :=
  [ ("f3.png", "blob:1"); ("other.png", "blob:2"); ("f3.png", "blob:3") ].

(** A document whose first record failed two checks and has a comma, a
    quote and a line feed in its texts. *)
Definition flagged_document : value :=
  VObj [ ("doc_id", VStr "paper_demo_002");
         ("records",
           VArr [ VObj [ ("material",
                           VStr ("PEO" +:+ Viewer.newline +:+ "LiTFSI"));
                         ("category", VStr "electrolyte");
                         ("property", VStr "ionic_conductivity");
                         ("value_min", VNum 3); ("value_max", VNum 2);
                         ("unit_original", VStr "S/cm");
                         ("origin", VStr "literature");
                         ("confidence", VNum 1);
                         ("provenance",
                           VObj [ ("page", VNum 3);
                                  ("snippet", VStr "Ref. 3 gives 3 to 2 S/cm") ]);
                         ("citations", VArr [VStr "[4], [5]"]);
                         ("constraints",
                           VObj [ ("hard_fail",
                                    VArr [ VStr "inverted_range";
                                           VStr ("said " +:+ Viewer.dquote
                                                 +:+ "about" +:+ Viewer.dquote) ]);
                                  ("soft_warn", VArr []) ]);
                         ("method", VStr "pattern") ];
                  VObj [ ("material", VStr "PVDF");
                         ("category", VStr "binder");
                         ("origin", VStr "this_work");
                         ("value_min", VNum 7) ];
                  VObj [ ("material", VStr "PEO");
                         ("category", VStr "electrolyte") ] ]);
         ("comparison",
           VArr [ VObj [ ("material", VStr "PEO");
                         ("category", VStr "electrolyte");
                         ("novelty_flag", VStr "no_baseline") ];
                  VObj [ ("material", VStr "PVDF");
                         ("category", VStr "binder") ] ]) ].

Definition flagged_state : Viewer.state :=
  (@Viewer.loadJsonObject Sample.runtime flagged_document
     Sample.initial_state).1.


End Gallery.

(** ** Properties of the viewer *)

Section viewer_facts.
Import JS Viewer Contract.
Context `{Runtime}.

Lemma includes_empty (s : string) : includes s "" = true.
Proof. unfold includes. destruct s; reflexivity. Qed.

Lemma nonempty_false (s : string) : nonempty s = false → s = "".
Proof. destruct s; [reflexivity | discriminate]. Qed.








Lemma make_view_idx (i : nat) (r : value) (v : view) :
  make_view i r = Some v → idx v = i.
Proof.
  unfold make_view. intros Hv. simplify_option_eq. reflexivity.
Qed.

Lemma make_view_hard_fail (i : nat) (r : value) (v : view) :
  make_view i r = Some v → hardFailDisplay r = Some (hard_fail v).
Proof.
  unfold make_view. intros Hv. simplify_option_eq. reflexivity.
Qed.



Lemma indexed_lookup (recs : list value) (i j : nat) (r : value) :
  In (j, r) (indexed i recs) ↔ i ≤ j ∧ recs !! (j - i) = Some r.
Proof.
  revert i. induction recs as [|x recs IH]; intros i; simpl.
  - split; [tauto | intros [_ ?]; discriminate].
  - rewrite IH. split.
    + intros [Heq | [Hle Hl]].
      * injection Heq as -> ->. rewrite Nat.sub_diag. by split.
      * split; [lia|]. replace (j - i) with (S (j - S i)) by lia. done.
    + intros [Hle Hl]. destruct (decide (i = j)) as [->|Hne].
      * rewrite Nat.sub_diag in Hl. left. simpl in Hl. congruence.
      * right. split; [lia|].
        replace (j - i) with (S (j - S i)) in Hl by lia. done.
Qed.

Lemma indexed_filter (P : value → bool) (recs : list value) (i : nat) :
  List.map snd (List.filter (λ jr, P jr.2) (indexed i recs))
  = List.filter P recs.
Proof.
  revert i. induction recs as [|x recs IH]; intros i; simpl; [reflexivity|].
  destruct (P x); simpl; by rewrite IH.
Qed.

Lemma sortByKey_total {A} (get : A → string → option value)
    (arr : list A) (key dir : string) :
  Forall (λ a, is_Some (get a key)) arr →
  ∃ sorted, sortByKey get arr key dir = Some sorted ∧ sorted ≡ₚ arr.
Proof.
  intros Hget. unfold sortByKey.
  assert (forallb (λ a, bool_decide (is_Some (get a key))) arr = true) as ->.
  { apply forallb_forall. intros a Ha. apply bool_decide_eq_true_2.
    rewrite Forall_forall in Hget. apply Hget. by apply list_elem_of_In. }
  rewrite orb_true_r. eexists. split; [reflexivity|]. apply array_sort_perm.
Qed.




Lemma mapM_total_map {A B} (f : A → option B) (g : A → B) (l : list A) :
  Forall (λ x, f x = Some (g x)) l → mapM f l = Some (List.map g l).
Proof.
  induction 1 as [|x l Hx _ IH]; simpl; [reflexivity|].
  rewrite Hx, IH. reflexivity.
Qed.

Lemma prop_opt_prop (r : value) (k : string) :
  nullish r = false → prop r k = Some (opt_prop r k).
Proof. by destruct r. Qed.

Lemma csv_cell_coalesce (x : value) :
  csv_cell (coalesce x (VStr "")) = csv_cell x.
Proof. unfold csv_cell. by destruct x. Qed.



Lemma append_right_empty (s t : string) : s +:+ t = s → t = "".
Proof.
  induction s as [|c s IH]; simpl; [done|].
  intros Heq. injection Heq as Heq. auto.
Qed.

Lemma join_or_else (v : value) (sep j : string) :
  method_join (or_else v (VArr [])) sep = Some j →
  j = array_join sep (array_or_empty v).
Proof.
  unfold or_else. destruct (truthy v) eqn:Ht.
  - destruct v; try discriminate. by intros [= <-].
  - simpl. intros [= <-]. by destruct v.
Qed.

Lemma haystack_sound (r : value) (h : string) :
  haystack r = Some h → h = searched_text r.
Proof.
  unfold haystack, searched_text. destruct (nullish r) eqn:Hr.
  - by destruct r.
  - rewrite !(prop_opt_prop r _ Hr). cbn [mbind option_bind].
    destruct (method_join _ " ") as [j|] eqn:Hj; [|discriminate].
    apply join_or_else in Hj as ->. by intros [= <-].
Qed.

Lemma hard_fail_shown (r : value) :
  no_hard_fail (hard_fail_of r) = false →
  is_Some (hardFailDisplay r) → has_hard_fail r = true.
Proof.
  unfold hardFailDisplay, has_hard_fail, hard_fail_entries.
  destruct (hard_fail_of r) as [| | | | |[|x xs]|];
    intros Hn; try discriminate Hn; try reflexivity;
    rewrite Hn; by intros [? [=]].
Qed.

Lemma no_hard_fail_entries (r : value) :
  no_hard_fail (hard_fail_of r) = true → has_hard_fail r = false.
Proof.
  unfold has_hard_fail, hard_fail_entries.
  by destruct (hard_fail_of r) as [| | | | |[|x xs]|].
Qed.

(** Whenever [recordMatchesFilters] returns, it returns what the four
    filters say, provided the hard_fail of a record it lets through can
    be displayed. *)
Lemma recordMatchesFilters_sound (c : controls) (r : value) (b : bool) :
  recordMatchesFilters c r = Some b →
  (b = true → is_Some (hardFailDisplay r)) →
  passes_filters c r = b.
Proof.
  unfold recordMatchesFilters, passes_filters, selected.
  destruct (nullish r) eqn:Hr.
  - assert (prop r "origin" = None ∧ prop r "category" = None
            ∧ haystack r = None ∧ hard_fail_of r = VUndefined
            ∧ has_hard_fail r = false) as (-> & -> & -> & -> & ->)
      by (by destruct r).
    destruct (String.eqb (originSelect c) "all"); [|discriminate].
    destruct (String.eqb (categorySelect c) "all"); [|discriminate].
    simpl. destruct (hardFailOnly c); simpl; [by intros [= <-]|].
    destruct (nonempty _) eqn:Hq; [discriminate|].
    apply nonempty_false in Hq. rewrite Hq, includes_empty. by intros [= <-].
  - rewrite !(prop_opt_prop r _ Hr). cbn [mbind option_bind].
    destruct (String.eqb (originSelect c) "all"); simpl;
      [|destruct (strict_eq _ (VStr (originSelect c))); simpl;
        [|by intros [= <-]]].
    all: destruct (String.eqb (categorySelect c) "all"); simpl;
      [|destruct (strict_eq _ (VStr (categorySelect c))); simpl;
        [|by intros [= <-]]].
    all: destruct (hardFailOnly c); simpl;
      [destruct (no_hard_fail (hard_fail_of r)) eqn:Hhf; simpl;
       [rewrite (no_hard_fail_entries r Hhf); by intros [= <-]|]|].
    all: destruct (nonempty _) eqn:Hq;
      [destruct (haystack r) as [h|] eqn:Hh; [|discriminate];
       apply haystack_sound in Hh as ->; simpl; intros [= <-] Hshown
      |apply nonempty_false in Hq; rewrite Hq, includes_empty;
       intros [= <-] Hshown].
    all: try reflexivity.
    all: match goal with
         | |- has_hard_fail _ && true = true =>
             by rewrite (hard_fail_shown r Hhf (Hshown eq_refl))
         | |- has_hard_fail _ && ?i = ?i =>
             destruct i eqn:Hi;
             [by rewrite (hard_fail_shown r Hhf (Hshown eq_refl))
             |apply andb_false_r]
         end.
Qed.

Lemma build_views_sound (c : controls) (recs : list value) (i : nat)
    (vs : list view) :
  build_views c i recs = Some vs →
  Forall2 (λ v jr, make_view jr.1 jr.2 = Some v) vs
    (List.filter (λ jr, passes_filters c jr.2) (indexed i recs)).
Proof.
  revert i vs. induction recs as [|r recs IH]; intros i vs; simpl.
  - intros [= <-]. constructor.
  - destruct (recordMatchesFilters c r) as [keep|] eqn:Hkeep; [|discriminate].
    simpl. destruct keep.
    + destruct (make_view i r) as [v|] eqn:Hv; [|discriminate]. simpl.
      destruct (build_views c (S i) recs) as [vs'|] eqn:Hvs; [|discriminate].
      intros [= <-].
      rewrite (recordMatchesFilters_sound c r true Hkeep).
      * constructor; [done | by apply IH].
      * intros _. apply make_view_hard_fail in Hv. eauto.
    + intros Hvs.
      rewrite (recordMatchesFilters_sound c r false Hkeep) by done.
      by apply IH.
Qed.

Lemma sortByKey_perm {A} (get : A → string → option value)
    (arr sorted : list A) (key dir : string) :
  sortByKey get arr key dir = Some sorted → sorted ≡ₚ arr.
Proof.
  unfold sortByKey. destruct (_ || _); [|discriminate].
  intros [= <-]. apply array_sort_perm.
Qed.

Lemma csv_line_sound (r : value) (l : string) :
  csv_line r = Some l → l = projection_line r.
Proof.
  unfold csv_line, csv_row, projection_line, record_field, hard_fail_entries.
  destruct (nullish r) eqn:Hr; [by destruct r|].
  rewrite !(prop_opt_prop r _ Hr). cbn [mbind option_bind].
  destruct (method_join (or_else (opt_prop r "citations") _) _) as [cj|] eqn:Hc;
    [|discriminate].
  apply join_or_else in Hc as ->. cbn [mbind option_bind].
  destruct (method_join (or_else (hard_fail_of r) _) _) as [hj|] eqn:Hh;
    [|discriminate].
  apply join_or_else in Hh as ->. cbn [mbind option_bind].
  intros [= <-]. simpl. unfold getPage. by rewrite csv_cell_coalesce.
Qed.


Lemma mapM_sound_map {A B} (f : A → option B) (g : A → B)
    (l : list A) (k : list B) :
  (∀ x y, f x = Some y → y = g x) → mapM f l = Some k → k = List.map g l.
Proof.
  intros Hfg Hk. apply mapM_Some_1 in Hk.
  induction Hk as [|x y l k Hxy _ IH]; simpl; [reflexivity|].
  by rewrite (Hfg x y Hxy), IH.
Qed.

Lemma csv_lines_sound (st : state) (lines : list string) :
  csv_lines st = Some lines →
  lines = csv_projection (exportFilteredJson st).
Proof.
  unfold csv_lines, csv_projection, exportFilteredJson.
  destruct (mapM _ (filteredRecordViews st)) as [k|] eqn:Hk; [|discriminate].
  simpl. intros [= <-]. f_equal.
  apply (mapM_sound_map _ (λ v, projection_line (record_at st v))) in Hk.
  - by rewrite Hk, List.map_map.
  - intros v l. apply csv_line_sound.
Qed.


Lemma Forall2_both_sides {A B} (R : A → B → Prop) (l : list A) (k : list B) :
  Forall2 R l k →
  (∀ x, x ∈ l → ∃ y, In y k ∧ R x y) ∧ (∀ y, In y k → ∃ x, x ∈ l ∧ R x y).
Proof.
  induction 1 as [|x y l k Hxy _ [IHl IHk]]; split.
  - intros x Hx. by apply elem_of_nil in Hx.
  - intros y [].
  - intros x' [->|Hx']%elem_of_cons.
    + exists y. split; [by left | done].
    + destruct (IHl x' Hx') as (y' & ? & ?). exists y'. split; [by right | done].
  - intros y' [<-|Hy'].
    + exists x. split; [apply elem_of_cons; by left | done].
    + destruct (IHk y' Hy') as (x' & ? & ?). exists x'.
      split; [apply elem_of_cons; by right | done].
Qed.

Lemma Forall2_map_eq {A B C} (R : A → B → Prop) (f : A → C) (g : B → C)
    (l : list A) (k : list B) :
  Forall2 R l k → (∀ x y, In y k → R x y → f x = g y) →
  List.map f l = List.map g k.
Proof.
  induction 1 as [|x y l k Hxy _ IH]; intros Hfg; simpl; [reflexivity|].
  rewrite (Hfg x y); [|by left | done]. rewrite IH; [reflexivity|].
  intros x' y' Hy'. apply Hfg. by right.
Qed.

Lemma passing_pairs (c : controls) (recs : list value) (jr : nat * value) :
  In jr (List.filter (λ jr, passes_filters c jr.2) (indexed 0 recs))
  ↔ recs !! jr.1 = Some jr.2 ∧ passes_filters c jr.2 = true.
Proof.
  rewrite filter_In. destruct jr as [j r]. rewrite indexed_lookup.
  simpl. rewrite Nat.sub_0_r. intuition lia.
Qed.

(** What the records table holds whenever it has been drawn: a view for
    each record that passes the filters and for no other, and behind the
    views, in some order, exactly those records. *)
Lemma renderRecordsTable_sound (st st' : state) :
  renderRecordsTable st = (st', Done) →
  records st' = records st
  ∧ els st' = els st
  ∧ comparison st' = comparison st
  ∧ (∀ v, v ∈ filteredRecordViews st' ↔
       ∃ i r, records st !! i = Some r
         ∧ passes_filters (els st) r = true ∧ make_view i r = Some v)
  ∧ (∀ i r, records st !! i = Some r → passes_filters (els st) r = true →
       is_Some (make_view i r))
  ∧ exportFilteredJson st'
    ≡ₚ List.filter (passes_filters (els st)) (records st).
Proof.
  unfold renderRecordsTable, buildRecordViews.
  destruct (build_views _ _ _) as [vs|] eqn:Hvs; [|intros [=]].
  destruct (sortByKey _ vs _ _) as [sorted|] eqn:Hsort; [|intros [=]].
  simpl. destruct (count_origins (records st) ∅); [|intros [=]].
  apply build_views_sound in Hvs as Hrel.
  apply sortByKey_perm in Hsort as Hperm.
  intros [= <-]. simpl. repeat (split; [done|]).
  destruct (Forall2_both_sides _ _ _ Hrel) as [Hl Hk]. split.
  - intros v. rewrite Hperm. split.
    + intros Hv. destruct (Hl v Hv) as ([i r] & [Hin Hp]%passing_pairs & Hmk).
      by exists i, r.
    + intros (i & r & Hi & Hp & Hmk).
      destruct (Hk (i, r)) as (v' & Hv' & Hmk'); [by apply passing_pairs|].
      simpl in Hmk'. congruence.
  - split.
    { intros i r Hi Hp.
      destruct (Hk (i, r)) as (v & _ & Hmk); [by apply passing_pairs|].
      eauto. }
    unfold exportFilteredJson, record_at. simpl. rewrite Hperm.
    rewrite <- (indexed_filter (passes_filters (els st)) (records st) 0).
    erewrite Forall2_map_eq; [reflexivity | exact Hrel|].
    intros v [i r] [Hi _]%passing_pairs Hmk. simpl in *.
    apply make_view_idx in Hmk. rewrite Hmk, Hi. reflexivity.
Qed.




Lemma four_counts_insert (m : gmap string nat) (k : string) :
  k = "this_work" ∨ k = "literature" ∨ k = "mixed" ∨ k = "unclear" →
  four_counts (<[k := S (default 0 (m !! k))]> m) = S (four_counts m).
Proof.
  unfold four_counts.
  intros [-> | [-> | [-> | ->]]];
    rewrite lookup_insert_eq, !lookup_insert_ne by done; simpl; lia.
Qed.

Lemma origin_known_key (fields : list (string * value)) :
  origin_known (VObj fields) = true →
  let k := to_string (or_else (own fields "origin") (VStr "unclear")) in
  k = "this_work" ∨ k = "literature" ∨ k = "mixed" ∨ k = "unclear".
Proof.
  simpl. destruct (own fields "origin") as [| | | |o| |]; try discriminate.
  - intros _. simpl. tauto.
  - intros Ho. repeat (apply orb_prop in Ho as [Ho|Ho]);
      apply String.eqb_eq in Ho as ->; simpl; tauto.
Qed.

Lemma count_origins_sum (recs : list value) (m : gmap string nat) :
  Forall (λ r, origin_known r = true) recs →
  ∃ m', count_origins recs m = Some m'
    ∧ four_counts m' = four_counts m + length recs.
Proof.
  intros Hall. revert m.
  induction Hall as [|r recs Hr _ IH]; intros m; simpl.
  - exists m. split; [reflexivity | lia].
  - destruct r as [| | | | | |fields]; try discriminate. simpl.
    destruct (IH (<[to_string (or_else (own fields "origin") (VStr "unclear"))
                    := S (default 0 (m !! to_string
                           (or_else (own fields "origin") (VStr "unclear"))))]> m))
      as (m' & Hm' & Hsum).
    exists m'. split; [exact Hm'|].
    rewrite Hsum, four_counts_insert; [lia|]. by apply origin_known_key.
Qed.

Lemma renderRecordsTable_stats (st st' : state) :
  renderRecordsTable st = (st', Done) →
  ∃ byOrigin, count_origins (records st) ∅ = Some byOrigin
    ∧ statsKv (page_dom st') = stats_items st' byOrigin
    ∧ records st' = records st.
Proof.
  unfold renderRecordsTable.
  destruct (buildRecordViews st) as [views|]; [|intros [=]].
  destruct (sortByKey _ views _ _) as [sorted|]; [|intros [=]].
  simpl. destruct (count_origins (records st) ∅) as [byOrigin|]; [|intros [=]].
  intros [= <-]. by exists byOrigin.
Qed.





(** C7. A Record is a point value exactly when value_max equals
    value_min or is null. [valueDisplay] shows the single formatted
    value_min for a point value and the range value_min-value_max
    otherwise, and nothing for a Record whose value_min is null; for a
    Record with a value_min, the single value is shown exactly when it is
    a point value. *)
Theorem value_display_point_or_range (rec : value) (lo hi : option float) :
  prop rec "value_min" = Some (number_or_null lo) →
  prop rec "value_max" = Some (number_or_null hi) →
  valueDisplay rec = Some (displayed_value lo hi)
  ∧ (lo = None → valueDisplay rec = Some "")
  ∧ ∀ a, lo = Some a →
      (point_value a hi = true → valueDisplay rec = Some (fmtValue (VNum a)))
      ∧ (point_value a hi = false →
         valueDisplay rec
         = Some (fmtValue (VNum a) +:+ en_dash +:+ fmtValue (number_or_null hi)))
      ∧ (valueDisplay rec = Some (fmtValue (VNum a)) ↔ point_value a hi = true).
Proof.
  intros Hlo Hhi.
  assert (valueDisplay rec = Some (displayed_value lo hi)) as Hd.
  { unfold valueDisplay. rewrite Hlo, Hhi. cbn [mbind option_bind].
    destruct lo as [a|]; [|reflexivity].
    destruct hi as [b|]; [|reflexivity].
    simpl. by destruct (PrimFloat.eqb b a). }
  split; [exact Hd|]. split; [by intros ->|].
  intros a ->. rewrite Hd. unfold displayed_value.
  destruct (point_value a hi) eqn:Hp.
  - repeat split; done.
  - repeat split; try done.
    intros Heq. injection Heq as Heq.
    apply append_right_empty in Heq. discriminate.
Qed.


(** C10. When the origin of every loaded record is this_work, literature,
    mixed, unclear or absent, the counting loop of the records-table
    renderer completes and its four per-origin counts sum to the number
    of loaded records; whatever the filter controls, these are the counts
    the renderer shows, next to that total, and only the filtered count
    follows the filters. *)
Theorem origin_counts_sum (st : state) :
  Forall (λ r, origin_known r = true) (records st) →
  ∃ byOrigin, count_origins (records st) ∅ = Some byOrigin
    ∧ four_counts byOrigin = length (records st)
    ∧ ∀ c st', renderRecordsTable (set_els c st) = (st', Done) →
        let shown := shown_count (statsKv (page_dom st')) in
        shown "this_work" = Some (default 0 (byOrigin !! "this_work"))
        ∧ shown "literature" = Some (default 0 (byOrigin !! "literature"))
        ∧ shown "mixed" = Some (default 0 (byOrigin !! "mixed"))
        ∧ shown "unclear" = Some (default 0 (byOrigin !! "unclear"))
        ∧ shown "records (total)" = Some (length (records st))
        ∧ shown "records (filtered)" = Some (length (filteredRecordViews st')).
Proof.
  intros Hall.
  destruct (count_origins_sum (records st) ∅ Hall) as (byOrigin & Hcount & Hsum).
  exists byOrigin. split; [exact Hcount|]. split; [exact Hsum|].
  intros c st' Hrender.
  apply renderRecordsTable_stats in Hrender as (m & Hm & Hstats & Hrecs).
  simpl in Hm, Hrecs. rewrite Hcount in Hm. injection Hm as <-.
  rewrite Hstats. unfold stats_items. simpl. rewrite Hrecs. done.
Qed.

End viewer_facts.

(** ** Properties of the pipeline and of its export in the viewer *)

Section engine_facts.
Import JS Viewer Contract.
Context `{Runtime} (format_range : Engine.range → string).






(** C3. With this_work at 1.2e-4 S/cm, a paper-cited literature range of
    3.0e-5 to 9.0e-5 S/cm and an external baseline range of 1.0e-5 to
    8.0e-5 S/cm, the novelty rule gives possible_outlier_high: this_work
    overlaps neither range and its minimum exceeds the maximum of their
    union. It is the flag of the comparison sample of the workflow
    page. *)
Theorem novelty_outlier_high :
  let tw : Engine.range := (1.2e-4, 1.2e-4)%float in
  let lit : Engine.range := (3.0e-5, 9.0e-5)%float in
  let base : Engine.range := (1.0e-5, 8.0e-5)%float in
  Engine.novelty_flag (Some tw) (Some lit) (Some base)
  = Engine.possible_outlier_high
  ∧ Engine.overlaps tw lit = false ∧ Engine.overlaps tw base = false
  ∧ Engine.hull_all [lit; base] = Some (1.0e-5, 9.0e-5)%float
  ∧ PrimFloat.ltb 9.0e-5 tw.1 = true
  ∧ opt_prop Workflow.comparison_sample "novelty_flag"
    = VStr (Engine.novelty_name
              (Engine.novelty_flag (Some tw) (Some lit) (Some base))).
Proof. repeat split; reflexivity. Qed.

(** C4. Normalizing an ionic conductivity reported in S/cm multiplies the
    values by 100 and names S/m as the SI unit; a Record with value_min
    1.2e-4 and unit_original S/cm gets value_si_min 0.012 and unit_si
    S/m, the values of the normalization sample of the workflow page. *)
Theorem conductivity_normalization (r : Engine.record) :
  Engine.property r = "ionic_conductivity" →
  Engine.unit_original r = "S/cm" →
  let n := Engine.normalize Engine.unit_rules r in
  Engine.value_si_min n
  = (λ v, PrimFloat.mul v 100) <$> Engine.value_min r
  ∧ Engine.value_si_max n
    = (λ v, PrimFloat.mul v 100) <$> Engine.value_max r
  ∧ (is_Some (Engine.value_min r) → Engine.unit_si n = Some "S/m")
  ∧ (Engine.value_min r = Some 1.2e-4%float →
     Engine.value_si_min n = Some 0.012%float
     ∧ Engine.unit_si n = Some "S/m"
     ∧ opt_prop (Engine.record_to_js n) "value_si_min"
       = opt_prop Workflow.normalization_sample "value_si_min"
     ∧ opt_prop (Engine.record_to_js n) "unit_si"
       = opt_prop Workflow.normalization_sample "unit_si").
Proof.
  intros Hp Hu n. subst n. unfold Engine.normalize. rewrite Hp, Hu. simpl.
  split; [reflexivity|]. split; [reflexivity|]. split.
  - by intros [v ->].
  - intros ->. repeat split; reflexivity.
Qed.



End engine_facts.

(** ** The theorems at the sample documents *)

Section samples.
Import JS Viewer Contract.
#[local] Existing Instance Sample.runtime.

Example extraction_sample_display :
  valueDisplay Workflow.extraction_sample = Some "1.200e-4".
Proof. reflexivity. Qed.

Example loaded_records_rows :
  recordsTbody (page_dom Sample.loaded_state)
  = [ [ "PEO-LiTFSI"; "electrolyte"; "ionic_conductivity"; "1.200e-4";
        "S/cm"; "5"; "this_work"; "1"; "" ];
      [ "PEO-LiTFSI"; "electrolyte"; "ionic_conductivity";
        "3.000e-5–9.000e-5"; "S/cm"; "2"; "literature"; "1"; "" ];
      [ "PEO-LiTFSI"; "electrolyte"; "ionic_conductivity";
        "9.000e-5–3.000e-5"; "S/cm"; "3"; "literature"; "1";
        "inverted_range; unit check skipped" ] ].
Proof. vm_compute. reflexivity. Qed.

Example loaded_comparison_rows :
  comparisonTbody (page_dom Sample.loaded_state)
  = [ [ "PEO-LiTFSI"; "ionic_conductivity"; "electrolyte";
        "1.2e-2 to 1.2e-2"; "3.0e-3 to 9.0e-3"; "1.0e-3 to 8.0e-3";
        "possible_outlier_high" ] ].
Proof. vm_compute. reflexivity. Qed.

Example loaded_stats :
  statsKv (page_dom Sample.loaded_state)
  = [ ("doc_id", StatValue (VStr "paper_demo_001"));
      ("records (total)", StatCount 3); ("records (filtered)", StatCount 3);
      ("this_work", StatCount 1); ("literature", StatCount 2);
      ("mixed", StatCount 0); ("unclear", StatCount 0);
      ("tables", StatCount 0); ("figures", StatCount 0) ].
Proof. vm_compute. reflexivity. Qed.

Example hard_fail_only_views :
  List.map idx
    (filteredRecordViews
       (renderRecordsTable
          (set_els (Controls "" "all" "all" true) Sample.loaded_state)).1)
  = [2].
Proof. vm_compute. reflexivity. Qed.

Example sparse_rows :
  recordsTbody (page_dom Sample.sparse_state)
  = [ [ "PEO"; ""; ""; "7.000"; ""; ""; ""; ""; "" ];
      [ "PVDF"; ""; ""; "2.000–3.000"; ""; ""; "mixed"; ""; "" ] ]
  ∧ comparisonTbody (page_dom Sample.sparse_state)
    = [ [ "PEO"; ""; ""; ""; ""; ""; "no_baseline" ] ].
Proof. split; vm_compute; reflexivity. Qed.

(** A record without an origin is counted as unclear, and is not selected
    by the origin filter set to unclear. *)
Example absent_origin_counted_not_selected :
  shown_count (statsKv (page_dom Sample.sparse_state)) "unclear" = Some 1
  ∧ filteredRecordViews
      (renderRecordsTable
         (set_els (Controls "" "unclear" "all" false) Sample.sparse_state)).1
    = [].
Proof. split; vm_compute; reflexivity. Qed.

(** The search text has a space between its parts. *)
Example search_across_parts :
  searched_text (VObj [ ("material", VStr "PEO"); ("property", VStr "Ionic") ])
  = "peo ionic   ".
Proof. reflexivity. Qed.

(** A null record makes the load throw in [rebuildCategoryOptions]; a
    string for citations is met only when a query is typed or the CSV is
    exported. *)
Example null_record_throws :
  (loadJsonObject (VObj [("records", VArr [VNull])]) Sample.initial_state).2
  = Threw.
Proof. reflexivity. Qed.

Example malformed_citations :
  (loadJsonObject Sample.malformed_document Sample.initial_state).2 = Done
  ∧ (renderRecordsTable
       (set_els (Controls "peo" "all" "all" false) Sample.malformed_state)).2
    = Threw
  ∧ exportFilteredCsv Sample.malformed_state = None.
Proof. repeat split; vm_compute; reflexivity. Qed.



Lemma value_display_point_or_range_witness :
  prop (Engine.record_to_js Sample.cited) "value_min"
  = Some (number_or_null (Some 3.0e-5%float))
  ∧ prop (Engine.record_to_js Sample.cited) "value_max"
    = Some (number_or_null (Some 9.0e-5%float))
  ∧ valueDisplay (Engine.record_to_js Sample.cited)
    = Some (displayed_value (Some 3.0e-5%float) (Some 9.0e-5%float)).
Proof.
  assert (prop (Engine.record_to_js Sample.cited) "value_min"
          = Some (number_or_null (Some 3.0e-5%float))) as Hlo by reflexivity.
  assert (prop (Engine.record_to_js Sample.cited) "value_max"
          = Some (number_or_null (Some 9.0e-5%float))) as Hhi by reflexivity.
  split; [exact Hlo|]. split; [exact Hhi|].
  exact (proj1 (value_display_point_or_range _ _ _ Hlo Hhi)).
Defined.


Lemma origin_counts_sum_witness :
  Forall (λ r, origin_known r = true) (records Sample.sparse_state)
  ∧ ∃ byOrigin, count_origins (records Sample.sparse_state) ∅ = Some byOrigin
      ∧ four_counts byOrigin = length (records Sample.sparse_state).
Proof.
  assert (Forall (λ r, origin_known r = true) (records Sample.sparse_state))
    as Hall.
  { vm_compute. repeat constructor. }
  split; [exact Hall|].
  destruct (origin_counts_sum Sample.sparse_state Hall)
    as (byOrigin & Hcount & Hsum & _).
  exists byOrigin. split; [exact Hcount | exact Hsum].
Defined.

Lemma conductivity_normalization_witness :
  Engine.property Sample.measured = "ionic_conductivity"
  ∧ Engine.unit_original Sample.measured = "S/cm"
  ∧ Engine.value_min Sample.measured = Some 1.2e-4%float
  ∧ Engine.value_si_min (Engine.normalize Engine.unit_rules Sample.measured)
    = Some 0.012%float
  ∧ Engine.unit_si (Engine.normalize Engine.unit_rules Sample.measured)
    = Some "S/m".
Proof.
  assert (Engine.property Sample.measured = "ionic_conductivity") as Hp
    by reflexivity.
  assert (Engine.unit_original Sample.measured = "S/cm") as Hu by reflexivity.
  assert (Engine.value_min Sample.measured = Some 1.2e-4%float) as Hv
    by reflexivity.
  split; [exact Hp|]. split; [exact Hu|]. split; [exact Hv|].
  destruct (conductivity_normalization Sample.measured Hp Hu)
    as (_ & _ & _ & Hsample).
  destruct (Hsample Hv) as (Hsi & Hunit & _). split; [exact Hsi | exact Hunit].
Defined.


End samples.

(** ** Escaping and paths *)

Section text_facts.
Import JS Viewer Contract Panes Reader.
Context `{Runtime}.

Lemma append_cons (x : Ascii.ascii) (a b : string) :
  String x a +:+ b = String x (a +:+ b).
Proof. reflexivity. Qed.

Lemma append_nil (b : string) : "" +:+ b = b.
Proof. reflexivity. Qed.

Lemma append_assoc (a b c : string) : (a +:+ b) +:+ c = a +:+ (b +:+ c).
Proof.
  induction a as [|x a IH]; [reflexivity|].
  by rewrite !append_cons, IH.
Qed.

Lemma append_empty_r (a : string) : a +:+ "" = a.
Proof.
  induction a as [|x a IH]; [reflexivity|]. by rewrite append_cons, IH.
Qed.

Lemma chars_append (a b : string) :
  String.list_ascii_of_string (a +:+ b)
  = String.list_ascii_of_string a ++ String.list_ascii_of_string b.
Proof.
  induction a as [|x a IH]; [reflexivity|].
  rewrite append_cons. simpl. by rewrite IH.
Qed.

Lemma entity_markup_free (c : Ascii.ascii) (e : string) :
  entity c = Some e → Forall markup_free (String.list_ascii_of_string e).
Proof.
  unfold entity.
  repeat (destruct (Ascii.eqb c _); [intros [= <-]; simpl;
    repeat constructor; discriminate|]).
  discriminate.
Qed.

Lemma entity_none_markup_free (c : Ascii.ascii) :
  entity c = None → markup_free c ∧ c ≠ ampersand.
Proof.
  unfold entity, markup_free.
  destruct (Ascii.eqb c ampersand) eqn:Ha; [discriminate|].
  destruct (Ascii.eqb c less_than) eqn:Hl; [discriminate|].
  destruct (Ascii.eqb c greater_than) eqn:Hg; [discriminate|].
  destruct (Ascii.eqb c double_quote) eqn:Hq; [discriminate|].
  destruct (Ascii.eqb c apostrophe) eqn:Hp; [discriminate|].
  intros _. by rewrite !Ascii.eqb_neq in *.
Qed.

Lemma replace_markup_free (s : string) :
  Forall markup_free (String.list_ascii_of_string (replace_markup s)).
Proof.
  induction s as [|c s IH]; simpl; [constructor|].
  destruct (entity c) as [e|] eqn:He.
  - rewrite chars_append. apply Forall_app. split; [|exact IH].
    by eapply entity_markup_free.
  - simpl. constructor; [|exact IH]. by apply entity_none_markup_free.
Qed.

Lemma prefix_append (p rest : string) : String.prefix p (p +:+ rest) = true.
Proof.
  induction p as [|c p IH]; [by destruct rest|].
  rewrite append_cons. simpl. by destruct (Ascii.ascii_dec c c).
Qed.

Lemma read_markup_ampersand (rest : string) :
  read_markup 0 (String ampersand rest)
  = if String.prefix "amp;" rest then String ampersand (read_markup 4 rest)
    else if String.prefix "lt;" rest then String less_than (read_markup 3 rest)
    else if String.prefix "gt;" rest
    then String greater_than (read_markup 3 rest)
    else if String.prefix "quot;" rest
    then String double_quote (read_markup 5 rest)
    else if String.prefix "#39;" rest
    then String apostrophe (read_markup 4 rest)
    else String ampersand (read_markup 0 rest).
Proof. reflexivity. Qed.

Lemma read_markup_entity (c : Ascii.ascii) (e rest : string) :
  entity c = Some e →
  read_markup 0 (e +:+ rest) = String c (read_markup 0 rest).
Proof.
  unfold entity.
  destruct (Ascii.eqb c ampersand) eqn:Ha.
  { apply Ascii.eqb_eq in Ha as ->. intros [= <-].
    change ("&amp;" +:+ rest) with (String ampersand ("amp;" +:+ rest)).
    by rewrite read_markup_ampersand, prefix_append. }
  destruct (Ascii.eqb c less_than) eqn:Hl.
  { apply Ascii.eqb_eq in Hl as ->. intros [= <-].
    change ("&lt;" +:+ rest) with (String ampersand ("lt;" +:+ rest)).
    rewrite read_markup_ampersand.
    change (String.prefix "amp;" ("lt;" +:+ rest)) with false.
    by rewrite prefix_append. }
  destruct (Ascii.eqb c greater_than) eqn:Hg.
  { apply Ascii.eqb_eq in Hg as ->. intros [= <-].
    change ("&gt;" +:+ rest) with (String ampersand ("gt;" +:+ rest)).
    rewrite read_markup_ampersand.
    change (String.prefix "amp;" ("gt;" +:+ rest)) with false.
    change (String.prefix "lt;" ("gt;" +:+ rest)) with false.
    by rewrite prefix_append. }
  destruct (Ascii.eqb c double_quote) eqn:Hq.
  { apply Ascii.eqb_eq in Hq as ->. intros [= <-].
    change ("&quot;" +:+ rest) with (String ampersand ("quot;" +:+ rest)).
    rewrite read_markup_ampersand.
    change (String.prefix "amp;" ("quot;" +:+ rest)) with false.
    change (String.prefix "lt;" ("quot;" +:+ rest)) with false.
    change (String.prefix "gt;" ("quot;" +:+ rest)) with false.
    by rewrite prefix_append. }
  destruct (Ascii.eqb c apostrophe) eqn:Hp.
  { apply Ascii.eqb_eq in Hp as ->. intros [= <-].
    change ("&#39;" +:+ rest) with (String ampersand ("#39;" +:+ rest)).
    rewrite read_markup_ampersand.
    change (String.prefix "amp;" ("#39;" +:+ rest)) with false.
    change (String.prefix "lt;" ("#39;" +:+ rest)) with false.
    change (String.prefix "gt;" ("#39;" +:+ rest)) with false.
    change (String.prefix "quot;" ("#39;" +:+ rest)) with false.
    by rewrite prefix_append. }
  discriminate.
Qed.

Lemma read_replace_markup (s : string) :
  read_markup 0 (replace_markup s) = s.
Proof.
  induction s as [|c s IH]; simpl; [reflexivity|].
  destruct (entity c) as [e|] eqn:He.
  - by rewrite (read_markup_entity c e _ He), IH.
  - apply entity_none_markup_free in He as [_ Hc].
    apply Ascii.eqb_neq in Hc. simpl. by rewrite Hc, IH.
Qed.

(** X1. What [sanitize] returns holds no angle bracket, no double quote
    and no apostrophe, whatever it is given. *)
Theorem sanitize_leaves_no_markup (v : value) :
  Forall markup_free (String.list_ascii_of_string (sanitize v)).
Proof. apply replace_markup_free. Qed.

(** X2. [sanitize] loses nothing: two values with different texts never
    give the same escaped text. *)
Theorem sanitize_injective (u v : value) :
  sanitize u = sanitize v →
  to_string (coalesce u (VStr "")) = to_string (coalesce v (VStr "")).
Proof.
  unfold sanitize. intros Heq.
  rewrite <- (read_replace_markup (to_string (coalesce u (VStr "")))).
  rewrite <- (read_replace_markup (to_string (coalesce v (VStr "")))).
  by rewrite Heq.
Qed.

Lemma split_path_spec (s : string) :
  ∃ part parts, split_path s = part :: parts
    ∧ separator_free part
    ∧ match parts with
      | [] => s = part
      | _ :: _ =>
          ∃ dir c, is_separator c = true
            ∧ s = dir +:+ String c (List.last parts "")
            ∧ separator_free (List.last parts "")
      end.
Proof.
  induction s as [|c s (part & parts & Hsplit & Hfree & Hrest)]; simpl.
  - exists "", []. repeat split. constructor.
  - destruct (is_separator c) eqn:Hc; rewrite Hsplit.
    + exists "", (part :: parts). split; [reflexivity|].
      split; [constructor|]. destruct parts as [|p parts].
      * exists "", c. subst s. by repeat split.
      * destruct Hrest as (dir & c' & Hc' & -> & Hlast).
        exists (String c dir), c'. by repeat split.
    + exists (String c part), parts. split; [reflexivity|].
      split; [by constructor|]. destruct parts as [|p parts].
      * by subst s.
      * destruct Hrest as (dir & c' & Hc' & -> & Hlast).
        exists (String c dir), c'. by repeat split.
Qed.

Lemma last_part_spec (s : string) :
  separator_free (last_part s)
  ∧ (s = last_part s
     ∨ ∃ dir c, is_separator c = true ∧ s = dir +:+ String c (last_part s)).
Proof.
  unfold last_part.
  destruct (split_path_spec s) as (part & parts & -> & Hfree & Hrest).
  destruct parts as [|p parts].
  - split; [exact Hfree | by left].
  - destruct Hrest as (dir & c & Hc & Hs & Hlast).
    split; [exact Hlast|]. right. by exists dir, c.
Qed.

Lemma last_part_separator_free (s : string) :
  separator_free s → last_part s = s.
Proof.
  unfold last_part. induction s as [|c s IH]; simpl; [reflexivity|].
  intros [Hc Hs]%Forall_cons. rewrite Hc.
  specialize (IH Hs). destruct (split_path s) as [|part [|p parts]] eqn:Hsp.
  - by destruct (split_path_spec s) as (? & ? & ? & _); simplify_eq.
  - simpl in *. by subst.
  - destruct (split_path_spec s) as (? & ? & Heq & _ & Hrest).
    rewrite Hsp in Heq. injection Heq as <- <-.
    destruct Hrest as (dir & c' & Hc' & -> & _).
    unfold separator_free in Hs. rewrite chars_append in Hs.
    apply Forall_app in Hs as [_ Hs]. simpl in Hs.
    apply Forall_cons in Hs as [Hs _]. congruence.
Qed.

(** X3. The file name [fileNameFromPath] takes from a path is what
    follows the last slash or backslash: it holds no separator, and the
    path is the name itself or a directory part, a separator and the
    name. *)
Theorem fileNameFromPath_after_last_separator (s : string) :
  separator_free (fileNameFromPath (VStr s))
  ∧ (s = fileNameFromPath (VStr s)
     ∨ ∃ dir c, is_separator c = true
         ∧ s = dir +:+ String c (fileNameFromPath (VStr s))).
Proof.
  unfold fileNameFromPath. destruct s as [|c s].
  - split; [constructor | by left].
  - apply last_part_spec.
Qed.

(** X4. Taking the file name of a file name changes nothing. *)
Theorem fileNameFromPath_idempotent (p : value) :
  fileNameFromPath (VStr (fileNameFromPath p)) = fileNameFromPath p.
Proof.
  unfold fileNameFromPath at 1. simpl.
  destruct (fileNameFromPath p) as [|c n] eqn:Hn; [reflexivity|].
  simpl. apply last_part_separator_free. rewrite <- Hn.
  unfold fileNameFromPath. destruct (truthy p); [|constructor].
  apply last_part_spec.
Qed.

End text_facts.

(** ** The panes of figures and tables *)

Section pane_facts.
Import JS Viewer Contract Panes Reader.
Context `{Runtime}.


Lemma image_files_lookup (picked : list (string * string)) (n : string) :
  image_files picked !! n
  = last (List.map snd (List.filter (λ f, String.eqb f.1 n) picked)).
Proof.
  unfold image_files.
  induction picked as [|[k u] picked IH] using rev_ind; [reflexivity|].
  rewrite foldl_snoc, List.filter_app, List.map_app, last_app. simpl.
  destruct (String.eqb k n) eqn:Hk.
  - apply String.eqb_eq in Hk as ->. by rewrite lookup_insert_eq.
  - apply String.eqb_neq in Hk. by rewrite lookup_insert_ne.
Qed.

(** X6. After files are picked, an image with a local absolute path
    shows the last picked file that has the name of the last part of
    its path, and no image when no picked file has that name. *)
Theorem picked_file_resolves (picked : list (string * string)) (img : value)
    (s : string) :
  opt_prop img "path" = VStr s →
  is_web s = false → is_relative s = false →
  resolveImageUrl (image_files picked) img
  = Some (last (List.map snd
                  (List.filter
                     (λ f, String.eqb f.1 (fileNameFromPath (VStr s)))
                     picked))).
Proof.
  intros Hp Hw Hr. unfold resolveImageUrl. rewrite Hp.
  destruct s as [|c s]; [discriminate|]. simpl truthy. cbv iota.
  simpl negb. cbv iota. rewrite Hw, Hr. by rewrite image_files_lookup.
Qed.

Lemma indexed_nth (l : list value) (i k : nat) :
  indexed i l !! k = (λ x, (i + k, x)) <$> l !! k.
Proof.
  revert i k. induction l as [|x l IH]; intros i [|k]; simpl; try done.
  - by rewrite Nat.add_0_r.
  - rewrite IH. by replace (S i + k) with (i + S k) by lia.
Qed.

Lemma table_panels_each (ts : list value) (i : nat) (ps : list table_panel) :
  table_panels i ts = Some ps →
  Forall2 (λ p it, table_panel_of it.1 it.2 = Some p) ps (indexed i ts).
Proof.
  revert i ps. induction ts as [|t ts IH]; intros i ps; simpl.
  - intros [= <-]. constructor.
  - destruct (table_panel_of i t) as [p|] eqn:Hp; [|discriminate]. simpl.
    destruct (table_panels (S i) ts) as [ps'|] eqn:Hps; [|discriminate].
    intros [= <-]. constructor; [done | by apply IH].
Qed.

Lemma table_body_rows (t : value) (body : list (list string)) :
  table_body t = Some body →
  length body ≤ 20
  ∧ ∀ rs, opt_prop t "rows" = VArr rs → length body = 20 `min` length rs.
Proof.
  unfold table_body. destruct (nullish t) eqn:Ht; [by destruct t|].
  rewrite (prop_opt_prop t _ Ht). cbn [mbind option_bind].
  destruct (as_array _) as [rs|] eqn:Hrs; [|discriminate].
  cbn [mbind option_bind]. intros Hbody. apply length_mapM in Hbody.
  rewrite <- Hbody, length_take. split; [lia|].
  intros rs' Hrows. rewrite Hrows in Hrs. by injection Hrs as <-.
Qed.

(** X7. The tables pane shows its placeholder exactly when the document
    has no table. Otherwise, whenever it is drawn, it has one panel per
    table, in order, only the first one open, and a panel shows the
    first twenty rows of its table and no more. *)
Theorem renderTables_panels (st : state) :
  (renderTables st = Some (Placeholder "(No tables in JSON)")
   ↔ tables st = [])
  ∧ ∀ panels, renderTables st = Some (Drawn panels) →
      length panels = length (tables st)
      ∧ ∀ i t p, tables st !! i = Some t → panels !! i = Some p →
          panel_open p = (i =? 0)
          ∧ length (panel_body p) ≤ 20
          ∧ ∀ rs, opt_prop t "rows" = VArr rs →
              length (panel_body p) = 20 `min` length rs.
Proof.
  unfold renderTables. split.
  - destruct (tables st) as [|t ts]; [done|].
    split; [|done]. by destruct (table_panels 0 (t :: ts)).
  - intros panels Hdrawn.
    assert (table_panels 0 (tables st) = Some panels) as Hpanels.
    { destruct (tables st) as [|t ts]; [done|].
      destruct (table_panels 0 (t :: ts)); [|done]. by injection Hdrawn as ->. }
    apply table_panels_each in Hpanels as Hall.
    split.
    { apply Forall2_length in Hall. rewrite Hall. clear.
      generalize 0. induction (tables st) as [|t ts IH]; intros i; simpl;
        [done | by rewrite IH]. }
    intros i t p Ht Hp.
    assert (indexed 0 (tables st) !! i = Some (i, t)) as Hit
      by (by rewrite indexed_nth, Ht).
    pose proof (Forall2_lookup_lr _ _ _ _ _ _ Hall Hp Hit) as Hpanel.
    simpl in Hpanel. unfold table_panel_of in Hpanel.
    destruct (table_label i t); [|discriminate].
    destruct (table_meta t); [|discriminate].
    destruct (table_header t); [|discriminate].
    destruct (table_body t) as [body|] eqn:Hbody; [|discriminate].
    injection Hpanel as <-. simpl. split; [reflexivity|].
    by apply table_body_rows.
Qed.

(** X8. Whenever the figures pane is drawn with figures, it has one
    thumb per image of the document, in order, and a thumb holds an image
    element exactly when [resolveImageUrl] gives its image an address
    that is not empty, which is then the source of the element. *)
Theorem renderFigures_thumbs (files : gmap string string) (st : state)
    (thumbs : list thumb) :
  renderFigures files st = Some (Drawn thumbs) →
  ∃ imgs, opt_prop (figures st) "images" = VArr imgs
    ∧ length thumbs = length imgs
    ∧ ∀ i img th, imgs !! i = Some img → thumbs !! i = Some th →
        match thumb_image th with
        | Some (src, _) =>
            src ≠ "" ∧ resolveImageUrl files img = Some (Some src)
        | None =>
            resolveImageUrl files img = Some None
            ∨ resolveImageUrl files img = Some (Some "")
        end.
Proof.
  unfold renderFigures. intros Hdrawn.
  assert (∃ items, opt_prop (figures st) "images" = VArr items
            ∧ mapM (thumb_of files) items = Some thumbs)
    as (items & Himgs & Hths).
  { destruct (opt_prop (figures st) "images") as [| |b|x|s|xs|fs];
      unfold or_else in Hdrawn; cbn [truthy has_length as_array negb]
        in Hdrawn; try (simpl in Hdrawn; congruence).
    - destruct b; simpl in Hdrawn; congruence.
    - destruct (negb (_ || _)) eqn:Hx; rewrite ?Hx in Hdrawn;
        simpl in Hdrawn; congruence.
    - destruct s; simpl in Hdrawn; congruence.
    - exists xs. split; [reflexivity|].
      destruct xs as [|x xs]; [simpl in Hdrawn; congruence|].
      change (mapM (thumb_of files) (x :: xs) ≫= (λ ths, Some (Drawn ths))
              = Some (Drawn thumbs)) in Hdrawn.
      destruct (mapM (thumb_of files) (x :: xs)) as [ths|];
        simpl in Hdrawn; congruence.
    - destruct (negb (truthy (own fs "length"))) eqn:Hl;
        rewrite ?Hl in Hdrawn; simpl in Hdrawn; congruence. }
  exists items. split; [exact Himgs|].
  apply mapM_Some_1 in Hths as Hall.
  split; [symmetry; by eapply Forall2_length|].
  intros i img th Hi Hth.
  pose proof (Forall2_lookup_lr _ _ _ _ _ _ Hall Hi Hth) as Hthumb.
  simpl in Hthumb. unfold thumb_of in Hthumb.
  destruct (resolveImageUrl files img) as [[[|c u]|]|]; try discriminate;
    simpl in Hthumb.
  - destruct (prop img "page"); [|discriminate]. simpl in Hthumb.
    destruct (prop img "figure_type"); [|discriminate]. simpl in Hthumb.
    destruct (caption_or_name img "(no caption)"); [|discriminate].
    injection Hthumb as <-. simpl. by right.
  - destruct (caption_or_name img "figure") as [alt|]; [|discriminate].
    simpl in Hthumb.
    destruct (prop img "page"); [|discriminate]. simpl in Hthumb.
    destruct (prop img "figure_type"); [|discriminate]. simpl in Hthumb.
    destruct (caption_or_name img "(no caption)"); [|discriminate].
    injection Hthumb as <-. simpl. by split.
  - destruct (prop img "page"); [|discriminate]. simpl in Hthumb.
    destruct (prop img "figure_type"); [|discriminate]. simpl in Hthumb.
    destruct (caption_or_name img "(no caption)"); [|discriminate].
    injection Hthumb as <-. simpl. by left.
Qed.

Lemma append_not_empty (a b : string) : b ≠ "" → a +:+ b ≠ "".
Proof. destruct a; [done|]. by rewrite append_cons. Qed.

Lemma caption_or_name_not_empty (img : value) (fallback text : string) :
  plain_caption img = true → fallback ≠ "" →
  caption_or_name img fallback = Some text → text ≠ "".
Proof.
  unfold plain_caption, caption_or_name. intros Hplain Hfb.
  destruct (nullish img) eqn:Hn; [by destruct img|].
  rewrite !(prop_opt_prop img _ Hn). cbn [mbind option_bind].
  destruct (opt_prop img "caption") as [| | | |[|c s]| |];
    try discriminate; simpl.
  all: try (intros [= <-]; unfold or_else;
            destruct (fileNameFromPath _) as [|c n]; simpl; done).
  by intros [= <-].
Qed.

(** X9. A figure whose caption is a string, or absent, never gets an
    empty caption line: it shows the caption, else the file name of its
    path, else a fixed text. *)
Theorem thumb_caption_not_empty (files : gmap string string) (img : value)
    (th : thumb) :
  plain_caption img = true →
  thumb_of files img = Some th → thumb_caption th ≠ "".
Proof.
  intros Hplain. unfold thumb_of.
  destruct (resolveImageUrl files img) as [url|]; [|discriminate]. simpl.
  destruct (match url with Some (String _ _) => _ | _ => _ end);
    [|discriminate]. simpl.
  destruct (prop img "page"); [|discriminate]. simpl.
  destruct (prop img "figure_type"); [|discriminate]. simpl.
  destruct (caption_or_name img "(no caption)") as [text|] eqn:Ht;
    [|discriminate].
  intros [= <-]. simpl. apply append_not_empty.
  by apply (caption_or_name_not_empty img "(no caption)" text Hplain).
Qed.

End pane_facts.

(** ** The records table, its filters and its sort headers *)

Section table_facts.
Import JS Viewer Contract Panes Reader.
Context `{Runtime}.

Lemma length_indexed (l : list value) (i : nat) :
  length (indexed i l) = length l.
Proof. revert i. induction l as [|x l IH]; intros i; simpl; auto. Qed.

Lemma length_filter_le {A} (f : A → bool) (l : list A) :
  length (List.filter f l) ≤ length l.
Proof. induction l as [|x l IH]; simpl; [lia|]. destruct (f x); simpl; lia. Qed.

Lemma renderRecordsTable_done (st st' : state) :
  renderRecordsTable st = (st', Done) →
  ∃ vs sorted byOrigin,
    build_views (els st) 0 (records st) = Some vs
    ∧ sortByKey (λ v k, Some (view_prop v k)) vs
        (sort_key (recordSort st)) (sort_dir (recordSort st)) = Some sorted
    ∧ count_origins (records st) ∅ = Some byOrigin
    ∧ st' = (let st1 := set_recordsTbody (List.map record_cells sorted)
                          (set_views sorted st) in
             set_statsKv (stats_items st1 byOrigin) st1).
Proof.
  unfold renderRecordsTable, buildRecordViews.
  destruct (build_views _ _ _) as [vs|] eqn:Hvs; [|intros [=]].
  destruct (sortByKey _ vs _ _) as [sorted|] eqn:Hsort; [|intros [=]].
  simpl. destruct (count_origins (records st) ∅) as [byOrigin|] eqn:Hcount;
    [|intros [=]].
  intros [= <-]. exists vs, sorted, byOrigin. repeat split; assumption.
Qed.

(** X10. Whenever the records table is drawn, it has one row per
    filtered view, the statistic of filtered records is the number of
    its rows, and that number never exceeds the number of loaded
    records. *)
Theorem rows_are_the_filtered_count (st st' : state) :
  renderRecordsTable st = (st', Done) →
  length (recordsTbody (page_dom st')) = length (filteredRecordViews st')
  ∧ shown_count (statsKv (page_dom st')) "records (filtered)"
    = Some (length (recordsTbody (page_dom st')))
  ∧ length (recordsTbody (page_dom st')) ≤ length (records st).
Proof.
  intros (vs & sorted & byOrigin & Hvs & Hsort & _ & ->)%renderRecordsTable_done.
  simpl. rewrite length_map. split; [reflexivity|]. split; [reflexivity|].
  apply sortByKey_perm in Hsort. rewrite Hsort.
  apply build_views_sound, Forall2_length in Hvs. rewrite Hvs.
  etrans; [apply length_filter_le|]. by rewrite length_indexed.
Qed.



(** X12. Ticking the hard-fail-only box only takes rows away: every view
    shown with the box ticked is shown with it unticked, all other
    controls being the same. *)
Theorem hard_fail_only_narrows (st ticked unticked : state) (v : view) :
  let c := els st in
  renderRecordsTable
    (set_els (Controls (searchInput c) (originSelect c) (categorySelect c)
                true) st) = (ticked, Done) →
  renderRecordsTable
    (set_els (Controls (searchInput c) (originSelect c) (categorySelect c)
                false) st) = (unticked, Done) →
  v ∈ filteredRecordViews ticked → v ∈ filteredRecordViews unticked.
Proof.
  intros c Hon Hoff Hv.
  apply renderRecordsTable_sound in Hon as (_ & _ & _ & Hviews_on & _).
  apply renderRecordsTable_sound in Hoff as (_ & _ & _ & Hviews_off & _).
  apply Hviews_on in Hv as (i & r & Hi & Hp & Hmk).
  apply Hviews_off. exists i, r. split; [exact Hi|]. split; [|exact Hmk].
  simpl in *. unfold passes_filters in *. simpl in *.
  apply andb_prop in Hp as [Hp Hq]. apply andb_prop in Hp as [Hp _].
  by rewrite Hp, Hq.
Qed.

Lemma strict_eq_string (x : value) (s : string) :
  strict_eq x (VStr s) = true → x = VStr s.
Proof. destruct x; try discriminate. simpl. by intros ->%String.eqb_eq. Qed.

Lemma make_view_selects (i : nat) (r : value) (v : view) :
  make_view i r = Some v →
  origin v = or_else (opt_prop r "origin") (VStr "")
  ∧ category v = or_else (opt_prop r "category") (VStr "").
Proof.
  unfold make_view. destruct (nullish r) eqn:Hr; [by destruct r|].
  rewrite !(prop_opt_prop r _ Hr). cbn [mbind option_bind].
  destruct (valueDisplay r); [|discriminate]. cbn [mbind option_bind].
  destruct (hardFailDisplay r); [|discriminate]. cbn [mbind option_bind].
  by intros [= <-].
Qed.

(** X13. With an origin selected, every row shown has exactly that
    origin, and with a category selected every row shown has exactly
    that category. *)
Theorem select_filters_are_exact (st st' : state) (v : view) :
  renderRecordsTable st = (st', Done) →
  v ∈ filteredRecordViews st' →
  (originSelect (els st) ≠ "all" → origin v = VStr (originSelect (els st)))
  ∧ (categorySelect (els st) ≠ "all" →
     category v = VStr (categorySelect (els st))).
Proof.
  intros Hrender Hv.
  apply renderRecordsTable_sound in Hrender as (_ & _ & _ & Hviews & _).
  apply Hviews in Hv as (i & r & _ & Hp & Hmk).
  apply make_view_selects in Hmk as [-> ->].
  unfold passes_filters, selected in Hp.
  apply andb_prop in Hp as [Hp _]. apply andb_prop in Hp as [Hp _].
  apply andb_prop in Hp as [Ho Hc].
  split; intros Hsel.
  - apply String.eqb_neq in Hsel. rewrite Hsel in Ho.
    by apply strict_eq_string.
  - apply String.eqb_neq in Hsel. rewrite Hsel in Hc.
    by apply strict_eq_string.
Qed.

(** X14. Drawing the records table a second time, nothing having
    changed, leaves the state as the first drawing left it. *)
Theorem renderRecordsTable_idempotent (st st' : state) :
  renderRecordsTable st = (st', Done) →
  renderRecordsTable st' = (st', Done).
Proof.
  intros (vs & sorted & byOrigin & Hvs & Hsort & Hcount & ->)%renderRecordsTable_done.
  unfold renderRecordsTable, buildRecordViews. simpl.
  rewrite Hvs, Hsort. simpl. rewrite Hcount. reflexivity.
Qed.

(** X15. A click on a sort header of a drawn records table draws it
    again with the same views in another order: no record appears or
    disappears, and the header clicked is the new sort key. *)
Theorem click_sort_reorders (st st' : state) (key : string) :
  renderRecordsTable st = (st', Done) →
  ∃ st'', click_sort RecordsTable key st' = (st'', Done)
    ∧ filteredRecordViews st'' ≡ₚ filteredRecordViews st'
    ∧ exportFilteredJson st'' ≡ₚ exportFilteredJson st'
    ∧ sort_key (recordSort st'') = key.
Proof.
  intros (vs & sorted & byOrigin & Hvs & Hsort & Hcount & ->)%renderRecordsTable_done.
  unfold click_sort, renderRecordsTable, buildRecordViews. simpl.
  rewrite Hvs.
  destruct (sortByKey_total (λ v k, Some (view_prop v k)) vs
              (sort_key (next_sort key (recordSort st)))
              (sort_dir (next_sort key (recordSort st))))
    as (again & Hagain & Hperm); [apply Forall_forall; eauto|].
  rewrite Hagain. simpl. rewrite Hcount.
  eexists. split; [reflexivity|]. simpl.
  apply sortByKey_perm in Hsort.
  assert (again ≡ₚ sorted) as Hsame by (by rewrite Hperm, Hsort).
  split; [exact Hsame|]. split.
  - unfold exportFilteredJson, record_at. simpl. by rewrite Hsame.
  - unfold next_sort. destruct (String.eqb _ key) eqn:Hk; simpl; [|done].
    by apply String.eqb_eq.
Qed.

End table_facts.

(** ** The details pane, clearing and loading *)

Section state_facts.
Import JS Viewer Contract Panes Reader.
Context `{Runtime}.




(** X17. Clearing always completes and leaves nothing behind: no record
    to export as JSON, a CSV export of the header line alone, the one
    status line in the statistics, the category select back on all; the
    query, the origin select, the hard-fail-only box and both sort orders
    stay as they were. *)
Theorem clearAll_leaves_nothing (st : state) :
  ∃ st', clearAll st = (st', Done)
    ∧ exportFilteredJson st' = []
    ∧ exportFilteredCsv st' = Some (String.concat "," csv_cols)
    ∧ statsKv (page_dom st') = [("status", StatValue (VStr "No data loaded."))]
    ∧ recordsTbody (page_dom st') = [] ∧ comparisonTbody (page_dom st') = []
    ∧ els st'
      = Controls (searchInput (els st)) (originSelect (els st)) "all"
          (hardFailOnly (els st))
    ∧ recordSort st' = recordSort st ∧ cmpSort st' = cmpSort st.
Proof.
  eexists. split; [reflexivity|]. repeat split; reflexivity.
Qed.

Lemma renderRecordsTable_no_alert (st : state) (msg : string) :
  (renderRecordsTable st).2 ≠ Alert msg.
Proof.
  unfold renderRecordsTable.
  destruct (buildRecordViews st); [|done].
  destruct (sortByKey _ _ _ _); [|done]. simpl.
  by destruct (count_origins (records st) ∅).
Qed.

Lemma renderComparisonTable_no_alert (st : state) (msg : string) :
  (renderComparisonTable st).2 ≠ Alert msg.
Proof.
  unfold renderComparisonTable.
  destruct (sortByKey _ _ _ _); [|done]. by destruct (mapM _ _).
Qed.

(** X18. A load is refused with the alert exactly when the value is
    neither an object nor an array; the state is then untouched. An
    object or an array never raises the alert, whatever it holds. *)
Theorem load_alerts_on_non_objects (obj : value) (st : state) :
  match obj with
  | VArr _ | VObj _ => ∀ msg, (loadJsonObject obj st).2 ≠ Alert msg
  | _ => loadJsonObject obj st = (st, Alert "Invalid JSON.")
  end.
Proof.
  assert (∀ o, truthy o = true → is_object o = true →
            ∀ msg, (loadJsonObject o st).2 ≠ Alert msg) as Hno.
  { intros o Ht Ho msg. unfold loadJsonObject. rewrite Ht, Ho. simpl.
    unfold rebuildCategoryOptions.
    destruct (mapM _ (records (load_fields o st))); [|done].
    match goal with
    | |- context [renderRecordsTable ?s] =>
        pose proof (renderRecordsTable_no_alert s msg) as Hr;
        destruct (renderRecordsTable s) as [st3 [| |m]]
    end; [|done|exact Hr].
    apply renderComparisonTable_no_alert. }
  destruct obj as [| |b|x|s|xs|fields]; try reflexivity.
  - by destruct b.
  - unfold loadJsonObject.
    destruct (truthy (VNum x)); reflexivity.
  - unfold loadJsonObject.
    destruct (truthy (VStr s)); reflexivity.
  - by apply Hno.
  - by apply Hno.
Qed.

Lemma array_sort_nil {A} (cmp : A → A → Z) : array_sort A cmp [] = [].
Proof. apply Permutation_nil_r, array_sort_perm. Qed.

(** X19. An array is loaded as a document without records: every pane is
    empty afterwards and the counts are zero, and no alert is raised. So
    the array written by the filtered JSON export does not load back as
    records. *)
Theorem load_of_array_is_empty (xs : list value) (st : state) :
  ∃ st', loadJsonObject (VArr xs) st = (st', Done)
    ∧ data st' = VArr xs
    ∧ records st' = [] ∧ comparison st' = [] ∧ tables st' = []
    ∧ filteredRecordViews st' = []
    ∧ recordsTbody (page_dom st') = []
    ∧ comparisonTbody (page_dom st') = []
    ∧ shown_count (statsKv (page_dom st')) "records (total)" = Some 0
    ∧ shown_count (statsKv (page_dom st')) "records (filtered)" = Some 0.
Proof.
  unfold loadJsonObject, rebuildCategoryOptions, renderRecordsTable,
    buildRecordViews, renderComparisonTable, sortByKey. simpl.
  rewrite !array_sort_nil. simpl.
  eexists. split; [reflexivity|]. repeat split; reflexivity.
Qed.

(** X20. A load that completes leaves no trace of the document shown
    before: started from two states that agree on the query, the origin
    select, the hard-fail-only box and the two sort orders, it ends in
    the same state. *)
Theorem load_forgets_previous (obj : value) (st1 st2 st' : state) :
  searchInput (els st1) = searchInput (els st2) →
  originSelect (els st1) = originSelect (els st2) →
  hardFailOnly (els st1) = hardFailOnly (els st2) →
  recordSort st1 = recordSort st2 →
  cmpSort st1 = cmpSort st2 →
  loadJsonObject obj st1 = (st', Done) →
  loadJsonObject obj st2 = (st', Done).
Proof.
  destruct st1 as [d1 r1 c1 t1 f1 l1 rs1 cs1 v1 [q1 o1 k1 h1] p1].
  destruct st2 as [d2 r2 c2 t2 f2 l2 rs2 cs2 v2 [q2 o2 k2 h2] p2].
  simpl. intros -> -> -> -> ->.
  unfold loadJsonObject.
  destruct (negb (truthy obj) || negb (is_object obj)); [intros [=]|].
  unfold rebuildCategoryOptions, load_fields. simpl.
  destruct (mapM _ (array_or_empty (opt_prop obj "records"))); [|intros [=]].
  unfold renderRecordsTable, buildRecordViews. simpl.
  destruct (build_views _ 0 _) as [vs|]; [|intros [=]].
  destruct (sortByKey _ vs _ _) as [sorted|]; [|intros [=]]. simpl.
  destruct (count_origins _ ∅) as [byOrigin|]; [|intros [=]].
  unfold renderComparisonTable. simpl.
  destruct (sortByKey prop _ _ _) as [rows|]; [|intros [=]].
  destruct (mapM comparison_cells rows) as [trs|]; [|intros [=]].
  intros [= <-]. reflexivity.
Qed.

(** X21. A document with a null among its records stops the load with a
    TypeError after the new data are stored and before anything is drawn:
    the state then holds the new records beside the views and the page
    of the document shown before. *)
Theorem load_with_null_record_keeps_old_rows (fields : list (string * value))
    (recs : list value) (r : value) (st : state) :
  own fields "records" = VArr recs →
  r ∈ recs → nullish r = true →
  ∃ st', loadJsonObject (VObj fields) st = (st', Threw)
    ∧ data st' = VObj fields ∧ records st' = recs
    ∧ filteredRecordViews st' = filteredRecordViews st
    ∧ page_dom st' = page_dom st
    ∧ els st' = els st.
Proof.
  intros Hrecs Hr Hnull.
  unfold loadJsonObject. simpl. unfold rebuildCategoryOptions.
  assert (records (load_fields (VObj fields) st) = recs) as Hloaded.
  { unfold load_fields. simpl. by rewrite Hrecs. }
  rewrite Hloaded.
  destruct (mapM (λ r0, prop r0 "category") recs) as [cats|] eqn:Hcats.
  - assert (is_Some (mapM (λ r0, prop r0 "category") recs)) as Hsome
      by eauto.
    apply mapM_is_Some in Hsome. rewrite Forall_forall in Hsome.
    destruct (Hsome r Hr) as [c Hc]. simpl in Hc. by destruct r.
  - eexists. split; [reflexivity|]. simpl. by rewrite Hrecs.
Qed.

Lemma prop_sound (r : value) (k : string) (x : value) :
  prop r k = Some x → x = opt_prop r k.
Proof. destruct r; simpl; congruence. Qed.

Lemma count_origins_spec (recs : list value) (m m' : gmap string nat)
    (k : string) :
  count_origins recs m = Some m' →
  default 0 (m' !! k)
  = default 0 (m !! k)
    + length (List.filter
                (λ r, String.eqb
                        (to_string (or_else (opt_prop r "origin")
                                      (VStr "unclear"))) k) recs).
Proof.
  revert m. induction recs as [|r recs IH]; intros m; simpl.
  - intros [= <-]. lia.
  - destruct (prop r "origin") as [o|] eqn:Ho; [|discriminate].
    apply prop_sound in Ho as ->. simpl. intros Hrest.
    rewrite (IH _ Hrest).
    destruct (String.eqb _ k) eqn:Hk.
    + apply String.eqb_eq in Hk. rewrite Hk, lookup_insert_eq. simpl. lia.
    + apply String.eqb_neq in Hk. by rewrite lookup_insert_ne.
Qed.

(** X22. Each of the four origin counters of the statistics is the
    number of loaded records, filtered or not, whose origin reads as
    that label; a record without origin counts as unclear. *)
Theorem origin_counter_counts (st st' : state) (k : string) :
  renderRecordsTable st = (st', Done) →
  In k ["this_work"; "literature"; "mixed"; "unclear"] →
  shown_count (statsKv (page_dom st')) k
  = Some (length (List.filter
                    (λ r, String.eqb
                            (to_string (or_else (opt_prop r "origin")
                                          (VStr "unclear"))) k)
                    (records st))).
Proof.
  intros (byOrigin & Hcount & -> & _)%renderRecordsTable_stats Hk.
  pose proof (count_origins_spec _ _ _ k Hcount) as Hspec.
  rewrite lookup_empty in Hspec. simpl in Hspec. rewrite <- Hspec.
  simpl in Hk. destruct Hk as [<- | [<- | [<- | [<- | []]]]]; reflexivity.
Qed.

End state_facts.

(** ** The options of the category select *)

Section category_facts.
Import JS Viewer Contract Panes Reader.
Context `{Runtime}.

Lemma same_value_zero_string (s : string) (y : value) :
  same_value_zero (VStr s) y = true ↔ y = VStr s.
Proof.
  destruct y as [| |b|x|t|xs|fields]; simpl; try (split; congruence).
  rewrite String.eqb_eq. split; congruence.
Qed.

Lemma seen_string (s : string) (seen : list value) :
  existsb (same_value_zero (VStr s)) seen = true ↔ In (VStr s) seen.
Proof.
  rewrite existsb_exists. split.
  - intros (y & Hy & ->%same_value_zero_string). exact Hy.
  - intros Hin. exists (VStr s). split; [exact Hin|].
    by apply same_value_zero_string.
Qed.

Lemma set_of_strings (xs seen : list value) :
  (∀ x, In x xs → ∃ s, x = VStr s) →
  List.NoDup seen →
  List.NoDup (set_of xs seen)
  ∧ ∀ x, In x (set_of xs seen) ↔ In x seen ∨ In x xs.
Proof.
  revert seen. induction xs as [|x xs IH]; intros seen Hstr Hnd; simpl.
  - split; [exact Hnd|]. tauto.
  - destruct (Hstr x (or_introl eq_refl)) as [s ->].
    assert (∀ y, In y xs → ∃ t, y = VStr t) as Hrest
      by (intros y Hy; apply Hstr; by right).
    destruct (existsb _ seen) eqn:Hseen.
    + apply seen_string in Hseen.
      destruct (IH seen Hrest Hnd) as [Hnd' Hin]. split; [exact Hnd'|].
      intros y. rewrite Hin. intuition congruence.
    + assert (¬ In (VStr s) seen) as Hnew.
      { intros Hin%seen_string. congruence. }
      destruct (IH (seen ++ [VStr s]) Hrest) as [Hnd' Hin].
      { apply List.NoDup_app; [exact Hnd| |].
        - apply List.NoDup_cons; [intros [] | constructor].
        - intros y Hy [<- | []]. by apply Hnew. }
      split; [exact Hnd'|]. intros y. rewrite Hin, in_app_iff. simpl. tauto.
Qed.

Lemma NoDup_map_strings (l : list value) :
  (∀ x, In x l → ∃ s, x = VStr s) → List.NoDup l →
  List.NoDup (List.map to_string l).
Proof.
  induction l as [|x l IH]; intros Hstr Hnd; simpl; [constructor|].
  inversion Hnd as [|? ? Hx Hl]; subst. constructor.
  - intros (y & Hy & Hin)%in_map_iff.
    destruct (Hstr x (or_introl eq_refl)) as [s ->].
    destruct (Hstr y (or_intror Hin)) as [t ->].
    simpl in Hy. subst. by apply Hx.
  - apply IH; [|exact Hl]. intros y Hy. apply Hstr. by right.
Qed.

Lemma plain_truthy_category (r : value) :
  plain_category r = true → truthy (opt_prop r "category") = true →
  ∃ s, opt_prop r "category" = VStr s ∧ s ≠ "".
Proof.
  unfold plain_category.
  destruct (opt_prop r "category") as [| |b|x|s|xs|fields];
    try discriminate.
  intros _ Ht. exists s. split; [reflexivity|]. by destruct s.
Qed.

(** X23. The category select offers [all] and then every category of
    the loaded records once: a text is offered exactly when it is not
    empty and is the category of some record. Categories are taken as
    strings or absent. *)
Theorem category_options_distinct (st : state) :
  Forall (λ r, nullish r = false) (records st) →
  Forall (λ r, plain_category r = true) (records st) →
  ∃ cats, category_options st = Some ("all" :: cats)
    ∧ List.NoDup cats
    ∧ ∀ s, In s cats
        ↔ s ≠ "" ∧ ∃ r, In r (records st) ∧ opt_prop r "category" = VStr s.
Proof.
  intros Hobj Hplain. unfold category_options.
  rewrite (mapM_total_map _ (λ r, opt_prop r "category")).
  2:{ eapply Forall_impl; [exact Hobj|]. intros r Hr.
      apply (prop_opt_prop r _ Hr). }
  simpl. eexists. split; [reflexivity|].
  set (cats := List.map (λ r, opt_prop r "category") (records st)).
  assert (∀ x, In x (List.filter truthy cats) →
            ∃ s, x = VStr s ∧ s ≠ ""
              ∧ ∃ r, In r (records st) ∧ opt_prop r "category" = VStr s)
    as Hfiltered.
  { intros x [Hin Ht]%filter_In.
    apply in_map_iff in Hin as (r & <- & Hr).
    rewrite Forall_forall in Hplain.
    destruct (plain_truthy_category r) as (s & Hs & Hne);
      [apply Hplain; by apply list_elem_of_In | exact Ht |].
    exists s. rewrite Hs. repeat split; try done. exists r. by rewrite <- Hs. }
  destruct (set_of_strings (List.filter truthy cats) [])
    as [Hnd Hin]; [|constructor|].
  { intros x Hx. destruct (Hfiltered x Hx) as (s & -> & _). eauto. }
  set (distinct := set_of (List.filter truthy cats) []) in *.
  pose proof (array_sort_perm value default_compare distinct) as Hperm.
  set (sorted := array_sort value default_compare distinct) in *.
  assert (∀ x, In x sorted ↔ In x (List.filter truthy cats)) as Hsame.
  { intros x. rewrite <- !list_elem_of_In, Hperm, !list_elem_of_In.
    rewrite Hin. simpl. tauto. }
  split.
  - apply NoDup_map_strings.
    + intros x Hx%Hsame. destruct (Hfiltered x Hx) as (s & -> & _). eauto.
    + apply NoDup_ListNoDup. rewrite Hperm. by apply NoDup_ListNoDup.
  - intros s. rewrite in_map_iff. split.
    + intros (x & <- & Hx%Hsame).
      destruct (Hfiltered x Hx) as (t & -> & Hne & Hr). by simpl.
    + intros (Hne & r & Hr & Hcat). exists (VStr s). split; [reflexivity|].
      apply Hsame, filter_In. split.
      * apply in_map_iff. exists r. by split.
      * by destruct s.
Qed.

End category_facts.

(** ** The workflow page *)

Section stage_facts.
Import JS Stages.


End stage_facts.

(** ** Reading the CSV export back *)

Section csv_facts.
Import JS Viewer Contract Panes Reader.
Context `{Runtime}.

Lemma read_start_quote (f : string) (r : list string) (rest : string) :
  read_csv_from FieldStart f r (String double_quote rest)
  = read_csv_from Quoted f r rest.
Proof. reflexivity. Qed.

Lemma read_quoted_quote (f : string) (r : list string) (rest : string) :
  read_csv_from Quoted f r (String double_quote rest)
  = read_csv_from QuoteSeen f r rest.
Proof. reflexivity. Qed.

Lemma read_quoted_other (c : Ascii.ascii) (f : string) (r : list string)
    (rest : string) :
  Ascii.eqb c double_quote = false →
  read_csv_from Quoted f r (String c rest)
  = read_csv_from Quoted (push f c) r rest.
Proof. intros Hc. simpl. by rewrite Hc. Qed.

Lemma read_seen_quote (f : string) (r : list string) (rest : string) :
  read_csv_from QuoteSeen f r (String double_quote rest)
  = read_csv_from Quoted (push f double_quote) r rest.
Proof. reflexivity. Qed.

Lemma read_seen_comma (f : string) (r : list string) (rest : string) :
  read_csv_from QuoteSeen f r (String comma rest)
  = read_csv_from FieldStart "" (r ++ [f]) rest.
Proof. reflexivity. Qed.

Lemma read_seen_line_feed (f : string) (r : list string) (rest : string) :
  read_csv_from QuoteSeen f r (String line_feed rest)
  = (r ++ [f]) :: read_csv_from FieldStart "" [] rest.
Proof. reflexivity. Qed.

Lemma push_append (f : string) (c : Ascii.ascii) (s : string) :
  push f c +:+ s = f +:+ String c s.
Proof. unfold push. by rewrite append_assoc, append_cons, append_nil. Qed.

(** A quoted field is read back as the text that was escaped. *)
Lemma read_quoted (s f : string) (r : list string) (tail : string) :
  read_csv_from Quoted f r (escape_quotes s +:+ String double_quote tail)
  = read_csv_from QuoteSeen (f +:+ s) r tail.
Proof.
  revert f. induction s as [|c s IH]; intros f.
  - simpl escape_quotes. by rewrite append_nil, read_quoted_quote,
      append_empty_r.
  - simpl escape_quotes.
    change (Ascii.ascii_of_nat 34) with double_quote.
    destruct (Ascii.eqb c double_quote) eqn:Hc.
    + apply Ascii.eqb_eq in Hc as ->.
      by rewrite !append_cons, read_quoted_quote, read_seen_quote, IH,
        push_append.
    + by rewrite append_cons, (read_quoted_other _ _ _ _ Hc), IH,
        push_append.
Qed.

Lemma read_cell (x : value) (r : list string) (tail : string) :
  read_csv_from FieldStart "" r (csv_cell x +:+ tail)
  = read_csv_from QuoteSeen (to_string (coalesce x (VStr ""))) r tail.
Proof.
  unfold csv_cell, dquote. change (Ascii.ascii_of_nat 34) with double_quote.
  by rewrite !append_cons, !append_nil, append_assoc, append_cons,
    append_nil, read_start_quote, read_quoted, append_nil.
Qed.

Lemma concat_more (sep a b : string) (l : list string) :
  String.concat sep (a :: b :: l) = a +:+ sep +:+ String.concat sep (b :: l).
Proof. reflexivity. Qed.

(** A line of quoted cells is read back cell by cell, up to what follows
    the line. *)
Lemma read_cells (xs : list value) (x : value) (r : list string)
    (tail : string) (k : list string → list (list string)) :
  (∀ f r', read_csv_from QuoteSeen f r' tail = k (r' ++ [f])) →
  read_csv_from FieldStart "" r
    (String.concat "," (List.map csv_cell (x :: xs)) +:+ tail)
  = k (r ++ List.map (λ y, to_string (coalesce y (VStr ""))) (x :: xs)).
Proof.
  intros Hk. revert x r. induction xs as [|y ys IH]; intros x r.
  - change (String.concat "," (List.map csv_cell [x])) with (csv_cell x).
    by rewrite read_cell, Hk.
  - change (List.map csv_cell (x :: y :: ys))
      with (csv_cell x :: csv_cell y :: List.map csv_cell ys).
    rewrite concat_more, !append_assoc.
    change ("," +:+ ?s) with (String comma s).
    rewrite read_cell.
    change ("," +:+ String.concat "," (csv_cell y :: List.map csv_cell ys)
            +:+ tail)
      with (String comma
              (String.concat "," (List.map csv_cell (y :: ys)) +:+ tail)).
    rewrite read_seen_comma. etrans; [apply (IH y)|].
    f_equal. simpl. by rewrite <- app_assoc.
Qed.

Lemma read_lines (rows : list (list value)) (x : value) (xs : list value) :
  Forall (λ row, row ≠ []) rows →
  read_csv_from FieldStart "" []
    (String.concat newline
       (List.map (λ row, String.concat "," (List.map csv_cell row))
          ((x :: xs) :: rows)))
  = List.map (List.map (λ y, to_string (coalesce y (VStr ""))))
      ((x :: xs) :: rows).
Proof.
  intros Hrows. revert x xs.
  induction Hrows as [|row rows Hrow _ IH]; intros x xs.
  - etrans; [|exact (read_cells xs x [] "" (λ r, [r]) (λ f r', eq_refl))].
    f_equal. symmetry. apply append_empty_r.
  - destruct row as [|y ys]; [done|].
    set (rest := String.concat newline
                   (List.map
                      (λ row, String.concat "," (List.map csv_cell row))
                      ((y :: ys) :: rows))).
    transitivity
      (read_csv_from FieldStart "" []
         (String.concat "," (List.map csv_cell (x :: xs))
          +:+ String line_feed rest)); [reflexivity|].
    rewrite (read_cells xs x [] (String line_feed rest)
               (λ r, r :: read_csv_from FieldStart "" [] rest)
               (λ f r', eq_refl)).
    unfold rest. by rewrite IH.
Qed.

Lemma read_csv_projection (recs : list value) :
  read_csv (String.concat newline (csv_projection recs))
  = csv_cols
    :: List.map
         (λ r, List.map
                 (λ col, to_string (coalesce (record_field r col) (VStr "")))
                 csv_cols)
         recs.
Proof.
  unfold csv_projection, read_csv. destruct recs as [|r recs].
  - reflexivity.
  - change (List.map projection_line (r :: recs))
      with (projection_line r :: List.map projection_line recs).
    rewrite concat_more.
    transitivity
      (csv_cols
       :: read_csv_from FieldStart "" []
            (String.concat newline
               (projection_line r :: List.map projection_line recs)));
      [reflexivity|].
    f_equal.
    set (cells := λ r', List.map (record_field r') records_columns).
    set (line := λ row, String.concat "," (List.map csv_cell row)).
    set (text := λ y, to_string (coalesce y (VStr ""))).
    pose proof (read_lines (List.map cells recs)
                  (record_field r "material")
                  (List.map (record_field r) (List.tl records_columns)))
      as Hread.
    etrans; [|etrans; [apply Hread|]].
    + f_equal. f_equal.
      change (List.map projection_line (r :: recs)
              = List.map line (List.map cells (r :: recs))).
      rewrite List.map_map. reflexivity.
    + apply Forall_forall.
      intros row (r' & <- & _)%list_elem_of_In%in_map_iff. discriminate.
    + change (List.map (List.map text) (List.map cells (r :: recs))
              = List.map (λ r', List.map (λ col, text (record_field r' col))
                                  csv_cols) (r :: recs)).
      rewrite List.map_map. reflexivity.
Qed.

(** X25. The CSV export can be read back: a reader of comma-separated
    text with quoted fields finds in it the eleven column names and then,
    for every exported record in turn, the eleven cell texts, whatever
    quotes, commas or line feeds those texts contain. *)
Theorem exported_csv_reads_back (st : state) (t : string) :
  exportFilteredCsv st = Some t →
  read_csv t
  = csv_cols
    :: List.map
         (λ r, List.map
                 (λ col, to_string (coalesce (record_field r col) (VStr "")))
                 csv_cols)
         (exportFilteredJson st).
Proof.
  unfold exportFilteredCsv.
  destruct (csv_lines st) as [lines|] eqn:Hlines; [|discriminate].
  apply csv_lines_sound in Hlines as ->. intros [= <-].
  apply read_csv_projection.
Qed.

(** X26. The CSV export loses no cell: two states whose exports are the
    same text export the same cell texts, record by record. *)
Theorem exported_csv_determines_cells (st1 st2 : state) (t : string) :
  exportFilteredCsv st1 = Some t →
  exportFilteredCsv st2 = Some t →
  List.map
    (λ r, List.map
            (λ col, to_string (coalesce (record_field r col) (VStr "")))
            csv_cols)
    (exportFilteredJson st1)
  = List.map
      (λ r, List.map
              (λ col, to_string (coalesce (record_field r col) (VStr "")))
              csv_cols)
      (exportFilteredJson st2).
Proof.
  unfold exportFilteredCsv.
  destruct (csv_lines st1) as [l1|] eqn:H1; [|discriminate].
  destruct (csv_lines st2) as [l2|] eqn:H2; [|discriminate].
  apply csv_lines_sound in H1 as ->. apply csv_lines_sound in H2 as ->.
  intros E1 E2. cbn [mbind option_bind] in E1, E2.
  assert (String.concat newline (csv_projection (exportFilteredJson st1))
          = String.concat newline (csv_projection (exportFilteredJson st2)))
    as Ht by congruence.
  pose proof (read_csv_projection (exportFilteredJson st1)) as R1.
  pose proof (read_csv_projection (exportFilteredJson st2)) as R2.
  rewrite Ht, R2 in R1. by injection R1.
Qed.

End csv_facts.

(** ** The sort headers and the comparator *)

Section sort_facts.
Import JS Viewer Contract Panes.
Context `{Runtime}.

(** X27. Clicks on one sort header alternate: the first click makes its
    key the sort key, ascending if the key is new; every further click
    on it flips the direction between asc and desc, so the third click
    restores what the first one gave. *)
Theorem sort_header_alternates (key : string) (s : sort_state) :
  let once := next_sort key s in
  let twice := next_sort key once in
  sort_key once = key
  ∧ (sort_dir once = "asc" ∨ sort_dir once = "desc")
  ∧ (sort_key s ≠ key → sort_dir once = "asc")
  ∧ sort_key twice = key
  ∧ sort_dir twice ≠ sort_dir once
  ∧ next_sort key twice = once.
Proof.
  unfold next_sort. destruct s as [k d]. simpl.
  destruct (String.eqb k key) eqn:Hk; simpl.
  - apply String.eqb_eq in Hk as ->. rewrite String.eqb_refl. simpl.
    destruct (String.eqb d "asc") eqn:Hd; simpl; rewrite String.eqb_refl;
      simpl; repeat split; auto; try congruence.
  - rewrite String.eqb_refl. simpl. rewrite String.eqb_refl. simpl.
    repeat split; auto; congruence.
Qed.


Lemma SFcompare_antisym (x y : SpecFloat.spec_float) :
  SpecFloat.SFcompare y x = option_map CompOpp (SpecFloat.SFcompare x y).
Proof.
  destruct x as [sx|sx| |sx mx ex], y as [sy|sy| |sy my ey]; simpl;
    try reflexivity; try (by destruct sx); try (by destruct sy);
    try (by destruct sx, sy).
  destruct sx, sy; simpl; try reflexivity;
    change (PosDef.Pos.compare_cont Eq my mx) with (Pos.compare my mx);
    change (PosDef.Pos.compare_cont Eq mx my) with (Pos.compare mx my);
    rewrite (Z.compare_antisym ex ey), (Pos.compare_antisym mx my);
    destruct (ex ?= ey)%Z; simpl; try reflexivity;
    by destruct (mx ?= my)%positive.
Qed.

Lemma float_ltb_asym (x y : float) :
  PrimFloat.ltb x y = true → PrimFloat.ltb y x = false.
Proof.
  rewrite !FloatAxioms.ltb_spec. unfold SpecFloat.SFltb.
  rewrite (SFcompare_antisym (FloatOps.Prim2SF x)).
  by destruct (SpecFloat.SFcompare _ _) as [[| |]|].
Qed.

Lemma string_ltb_asym (a b : string) :
  String.ltb a b = true → String.ltb b a = false.
Proof.
  unfold String.ltb. rewrite (String.compare_antisym b a).
  by destruct (String.compare a b).
Qed.

(** X29. The comparator of [sortByKey] is antisymmetric: with its
    arguments exchanged it returns the opposite sign, and so it returns
    zero on two equal keys; and a descending sort compares as an
    ascending one with its arguments exchanged. *)
Theorem compare_keys_antisymmetric (m : Z) (va vb : value) :
  compare_keys m vb va = (- compare_keys m va vb)%Z
  ∧ compare_keys m va va = 0%Z
  ∧ compare_keys (-1) va vb = compare_keys 1 vb va.
Proof.
  assert (∀ k a b, compare_keys k b a = (- compare_keys k a b)%Z) as Hanti.
  { intros k a b. unfold compare_keys.
    assert (∀ sa sb : string,
              (if String.ltb sb sa then (-1 * k)%Z
               else if String.ltb sa sb then (1 * k)%Z else 0%Z)
              = (- (if String.ltb sa sb then (-1 * k)%Z
                    else if String.ltb sb sa then (1 * k)%Z else 0%Z))%Z)
      as Hstr.
    { intros sa sb. destruct (String.ltb sb sa) eqn:Hlt.
      - rewrite (string_ltb_asym _ _ Hlt). lia.
      - destruct (String.ltb sa sb); lia. }
    destruct (numeric_key a) as [na|], (numeric_key b) as [nb|];
      try apply Hstr.
    destruct (PrimFloat.ltb nb na) eqn:Hlt.
    - rewrite (float_ltb_asym _ _ Hlt). lia.
    - destruct (PrimFloat.ltb na nb); lia. }
  split; [apply Hanti|]. split.
  - pose proof (Hanti m va va). lia.
  - rewrite (Hanti 1%Z va vb). unfold compare_keys.
    destruct (numeric_key va), (numeric_key vb);
      repeat match goal with
             | |- context [if ?b then _ else _] => destruct b
             end; lia.
Qed.

End sort_facts.

(** ** The properties above on the sample documents *)

Section more_samples.
Import JS Viewer Contract Panes Reader.
#[local] Existing Instance Sample.runtime.

Ltac exists_value t := let v := eval vm_compute in t in exists v.
Ltac exists_head t :=
  let v := eval vm_compute in t in
  match v with ?x :: _ => exists x end.
Ltac by_evaluation := vm_compute; reflexivity.
Ltac is_head := apply list_elem_of_In; vm_compute; left; reflexivity.

Lemma sanitize_injective_witness :
  sanitize (VNum 1) = sanitize (VStr "1")
  ∧ to_string (coalesce (VNum 1) (VStr ""))
    = to_string (coalesce (VStr "1") (VStr "")).
Proof.
  assert (sanitize (VNum 1) = sanitize (VStr "1")) as Hsame
    by by_evaluation.
  split; [exact Hsame|]. exact (sanitize_injective _ _ Hsame).
Defined.


Lemma picked_file_resolves_witness :
  let img := VObj [("path", VStr "C:\out\images\f3.png")] in
  let s := "C:\out\images\f3.png" in
  opt_prop img "path" = VStr s
  ∧ is_web s = false ∧ is_relative s = false
  ∧ resolveImageUrl (image_files Gallery.picked_files) img
    = Some (last (List.map snd
                    (List.filter
                       (λ f, String.eqb f.1 (fileNameFromPath (VStr s)))
                       Gallery.picked_files))).
Proof.
  intros img s.
  assert (opt_prop img "path" = VStr s) as Hpath by reflexivity.
  assert (is_web s = false) as Hweb by by_evaluation.
  assert (is_relative s = false) as Hrel by by_evaluation.
  repeat (split; [assumption|]).
  exact (picked_file_resolves Gallery.picked_files img s Hpath Hweb Hrel).
Defined.

Lemma renderFigures_thumbs_witness :
  let files := image_files Gallery.picked_files in
  ∃ thumbs,
    renderFigures files Gallery.tabled_state = Some (Drawn thumbs)
    ∧ ∃ imgs, opt_prop (figures Gallery.tabled_state) "images" = VArr imgs
        ∧ length thumbs = length imgs.
Proof.
  intros files.
  exists_value (match renderFigures files Gallery.tabled_state with
                | Some (Drawn thumbs) => thumbs
                | _ => []
                end).
  match goal with
  | |- ?hyp ∧ _ => assert hyp as Hdrawn by by_evaluation
  end.
  split; [exact Hdrawn|].
  destruct (renderFigures_thumbs files Gallery.tabled_state _ Hdrawn)
    as (imgs & Himgs & Hlen & _).
  exists imgs. split; [exact Himgs | exact Hlen].
Defined.

Lemma thumb_caption_not_empty_witness :
  let files := image_files Gallery.picked_files in
  let img := VObj [("path", VStr "assets/demo/f2.png"); ("page", VNum 3)] in
  plain_caption img = true
  ∧ ∃ th, thumb_of files img = Some th ∧ thumb_caption th ≠ "".
Proof.
  intros files img.
  assert (plain_caption img = true) as Hplain by reflexivity.
  split; [exact Hplain|].
  exists_value (default (Thumb None "") (thumb_of files img)).
  match goal with
  | |- ?hyp ∧ _ => assert hyp as Hthumb by by_evaluation
  end.
  split; [exact Hthumb|].
  exact (thumb_caption_not_empty files img _ Hplain Hthumb).
Defined.

Lemma rows_are_the_filtered_count_witness :
  let st := set_els (Controls "" "literature" "all" false)
              Gallery.flagged_state in
  ∃ st', renderRecordsTable st = (st', Done)
    ∧ length (recordsTbody (page_dom st')) = length (filteredRecordViews st')
    ∧ shown_count (statsKv (page_dom st')) "records (filtered)"
      = Some (length (recordsTbody (page_dom st')))
    ∧ length (recordsTbody (page_dom st')) ≤ length (records st).
Proof.
  intros st. exists_value (renderRecordsTable st).1.
  match goal with
  | |- ?hyp ∧ _ => assert hyp as Hrender by by_evaluation
  end.
  split; [exact Hrender|]. exact (rows_are_the_filtered_count st _ Hrender).
Defined.


Lemma hard_fail_only_narrows_witness :
  let st := Gallery.flagged_state in
  let c := els st in
  ∃ ticked unticked v,
    renderRecordsTable
      (set_els (Controls (searchInput c) (originSelect c) (categorySelect c)
                  true) st) = (ticked, Done)
    ∧ renderRecordsTable
        (set_els (Controls (searchInput c) (originSelect c)
                    (categorySelect c) false) st) = (unticked, Done)
    ∧ v ∈ filteredRecordViews ticked
    ∧ v ∈ filteredRecordViews unticked.
Proof.
  intros st c.
  exists_value
    (renderRecordsTable
       (set_els (Controls (searchInput c) (originSelect c) (categorySelect c)
                   true) st)).1.
  exists_value
    (renderRecordsTable
       (set_els (Controls (searchInput c) (originSelect c) (categorySelect c)
                   false) st)).1.
  exists_head
    (filteredRecordViews
       (renderRecordsTable
          (set_els (Controls (searchInput c) (originSelect c)
                      (categorySelect c) true) st)).1).
  match goal with
  | |- ?h1 ∧ ?h2 ∧ ?h3 ∧ _ =>
      assert h1 as Hon by by_evaluation;
      assert h2 as Hoff by by_evaluation;
      assert h3 as Hv by is_head
  end.
  repeat (split; [assumption|]).
  exact (hard_fail_only_narrows st _ _ _ Hon Hoff Hv).
Defined.

Lemma select_filters_are_exact_witness :
  let st := set_els (Controls "" "literature" "all" false)
              Gallery.flagged_state in
  ∃ st' v,
    renderRecordsTable st = (st', Done)
    ∧ v ∈ filteredRecordViews st'
    ∧ (originSelect (els st) ≠ "all" →
       origin v = VStr (originSelect (els st)))
    ∧ (categorySelect (els st) ≠ "all" →
       category v = VStr (categorySelect (els st))).
Proof.
  intros st. exists_value (renderRecordsTable st).1.
  exists_head (filteredRecordViews (renderRecordsTable st).1).
  match goal with
  | |- ?h1 ∧ ?h2 ∧ _ =>
      assert h1 as Hrender by by_evaluation;
      assert h2 as Hv by is_head
  end.
  repeat (split; [assumption|]).
  exact (select_filters_are_exact st _ _ Hrender Hv).
Defined.

Lemma renderRecordsTable_idempotent_witness :
  let st := set_els (Controls "peo" "all" "all" false) Sample.sparse_state in
  ∃ st', renderRecordsTable st = (st', Done)
    ∧ renderRecordsTable st' = (st', Done).
Proof.
  intros st. exists_value (renderRecordsTable st).1.
  match goal with
  | |- ?hyp ∧ _ => assert hyp as Hrender by by_evaluation
  end.
  split; [exact Hrender|]. exact (renderRecordsTable_idempotent st _ Hrender).
Defined.

Lemma click_sort_reorders_witness :
  let st := Gallery.flagged_state in
  ∃ st', renderRecordsTable st = (st', Done)
    ∧ ∃ st'', click_sort RecordsTable "value_display" st' = (st'', Done)
        ∧ filteredRecordViews st'' ≡ₚ filteredRecordViews st'
        ∧ exportFilteredJson st'' ≡ₚ exportFilteredJson st'
        ∧ sort_key (recordSort st'') = "value_display".
Proof.
  intros st. exists_value (renderRecordsTable st).1.
  match goal with
  | |- ?hyp ∧ _ => assert hyp as Hrender by by_evaluation
  end.
  split; [exact Hrender|].
  exact (click_sort_reorders st _ "value_display" Hrender).
Defined.


Lemma load_forgets_previous_witness :
  let st1 := Sample.initial_state in
  let st2 := Gallery.flagged_state in
  searchInput (els st1) = searchInput (els st2)
  ∧ originSelect (els st1) = originSelect (els st2)
  ∧ hardFailOnly (els st1) = hardFailOnly (els st2)
  ∧ recordSort st1 = recordSort st2
  ∧ cmpSort st1 = cmpSort st2
  ∧ ∃ st', loadJsonObject Sample.sparse_document st1 = (st', Done)
      ∧ loadJsonObject Sample.sparse_document st2 = (st', Done).
Proof.
  intros st1 st2.
  assert (searchInput (els st1) = searchInput (els st2)) as Hq
    by by_evaluation.
  assert (originSelect (els st1) = originSelect (els st2)) as Ho
    by by_evaluation.
  assert (hardFailOnly (els st1) = hardFailOnly (els st2)) as Hb
    by by_evaluation.
  assert (recordSort st1 = recordSort st2) as Hrs by by_evaluation.
  assert (cmpSort st1 = cmpSort st2) as Hcs by by_evaluation.
  repeat (split; [assumption|]).
  exists_value (loadJsonObject Sample.sparse_document st1).1.
  match goal with
  | |- ?hyp ∧ _ => assert hyp as Hload by by_evaluation
  end.
  split; [exact Hload|].
  exact (load_forgets_previous _ st1 st2 _ Hq Ho Hb Hrs Hcs Hload).
Defined.

Lemma load_with_null_record_keeps_old_rows_witness :
  let fields := [("doc_id", VStr "broken"); ("records", VArr [VNull])] in
  let st := Gallery.flagged_state in
  own fields "records" = VArr [VNull]
  ∧ VNull ∈ [VNull] ∧ nullish VNull = true
  ∧ ∃ st', loadJsonObject (VObj fields) st = (st', Threw)
      ∧ data st' = VObj fields ∧ records st' = [VNull]
      ∧ filteredRecordViews st' = filteredRecordViews st
      ∧ page_dom st' = page_dom st
      ∧ els st' = els st.
Proof.
  intros fields st.
  assert (own fields "records" = VArr [VNull]) as Hrecs by reflexivity.
  assert (VNull ∈ [VNull]) as Hin by (apply list_elem_of_In; by left).
  assert (nullish VNull = true) as Hnull by reflexivity.
  repeat (split; [assumption|]).
  exact (load_with_null_record_keeps_old_rows fields _ _ st Hrecs Hin Hnull).
Defined.

Lemma origin_counter_counts_witness :
  let st := Gallery.flagged_state in
  ∃ st', renderRecordsTable st = (st', Done)
    ∧ In "literature" ["this_work"; "literature"; "mixed"; "unclear"]
    ∧ shown_count (statsKv (page_dom st')) "literature"
      = Some (length (List.filter
                        (λ r, String.eqb
                                (to_string (or_else (opt_prop r "origin")
                                              (VStr "unclear")))
                                "literature")
                        (records st))).
Proof.
  intros st. exists_value (renderRecordsTable st).1.
  match goal with
  | |- ?hyp ∧ _ => assert hyp as Hrender by by_evaluation
  end.
  assert (In "literature" ["this_work"; "literature"; "mixed"; "unclear"])
    as Hk by (simpl; tauto).
  repeat (split; [assumption|]).
  exact (origin_counter_counts st _ "literature" Hrender Hk).
Defined.

Lemma category_options_distinct_witness :
  let st := Gallery.flagged_state in
  Forall (λ r, nullish r = false) (records st)
  ∧ Forall (λ r, plain_category r = true) (records st)
  ∧ ∃ cats, category_options st = Some ("all" :: cats)
      ∧ List.NoDup cats
      ∧ ∀ s, In s cats
          ↔ s ≠ ""
            ∧ ∃ r, In r (records st) ∧ opt_prop r "category" = VStr s.
Proof.
  intros st.
  assert (Forall (λ r, nullish r = false) (records st)) as Hobj
    by (vm_compute; repeat constructor).
  assert (Forall (λ r, plain_category r = true) (records st)) as Hplain
    by (vm_compute; repeat constructor).
  repeat (split; [assumption|]).
  exact (category_options_distinct st Hobj Hplain).
Defined.

Lemma exported_csv_reads_back_witness :
  let st := Gallery.flagged_state in
  ∃ t, exportFilteredCsv st = Some t
    ∧ read_csv t
      = csv_cols
        :: List.map
             (λ r, List.map
                     (λ col, to_string (coalesce (record_field r col)
                                          (VStr "")))
                     csv_cols)
             (exportFilteredJson st).
Proof.
  intros st. exists_value (default "" (exportFilteredCsv st)).
  match goal with
  | |- ?hyp ∧ _ => assert hyp as Hcsv by by_evaluation
  end.
  split; [exact Hcsv|]. exact (exported_csv_reads_back st _ Hcsv).
Defined.

Lemma exported_csv_determines_cells_witness :
  let st1 := Gallery.flagged_state in
  let st2 := set_cmpSort (SortState "category" "desc") Gallery.flagged_state in
  ∃ t, exportFilteredCsv st1 = Some t
    ∧ exportFilteredCsv st2 = Some t
    ∧ List.map
        (λ r, List.map
                (λ col, to_string (coalesce (record_field r col) (VStr "")))
                csv_cols)
        (exportFilteredJson st1)
      = List.map
          (λ r, List.map
                  (λ col, to_string (coalesce (record_field r col)
                                       (VStr "")))
                  csv_cols)
          (exportFilteredJson st2).
Proof.
  intros st1 st2. exists_value (default "" (exportFilteredCsv st1)).
  match goal with
  | |- ?h1 ∧ ?h2 ∧ _ =>
      assert h1 as H1 by by_evaluation;
      assert h2 as H2 by by_evaluation
  end.
  split; [exact H1|]. split; [exact H2|].
  exact (exported_csv_determines_cells st1 st2 _ H1 H2).
Defined.


End more_samples.
